(** * Einzel lens simulator: the React client and the simulation core

    The repository's source is [src/App.js], a React component with one
    form, two submit handlers and two pieces of displayed state.

    - [Js]: the JavaScript values the component handles.
    - [App]: the component itself, embedded from the source: its state,
      its handlers as computations that may throw and that log their
      effects, and its view.
    - [Core]: the numerical engine the handlers reach over HTTP.  Its
      code is not part of [src/]; it is modelled from the written
      specification (sections 3 to 7).
    - [AppFacts], [CoreFacts]: the properties, each named after the claim
      it settles. *)

From Stdlib Require Import ZArith QArith Qcanon Qround Lqa String Floats.
From stdpp Require Import base option list numbers sorting gmap strings.

Set Warnings "-register-all".
Set Default Proof Using "Type".

Open Scope string_scope.

(* ===================================================================== *)
(** ** JavaScript values *)
(* ===================================================================== *)

Module Js.

(** A JavaScript value as the component can meet one: a form field, a
    parsed JSON response body, a rejection reason.  Numbers are IEEE-754
    doubles, objects are finite maps from property names to values. *)
Inductive JsVal : Type :=
| JUndefined
| JNull
| JBool (b : bool)
| JNum (x : float)
| JStr (s : string)
| JArr (items : list JsVal)
| JObj (props : gmap string JsVal).

(** What a [throw] (or a rejected promise) carries: the rejection reason
    handed over by [axios], or the [TypeError] the engine raises when a
    property of [undefined] or [null] is read. *)
Inductive Thrown : Type :=
| Rejection (reason : JsVal)
| TypeError (message : string).

(** ToBoolean: [undefined], [null], [false], [0], [-0], [NaN] and the
    empty string are falsy, everything else is truthy. *)
Definition truthy (v : JsVal) : bool :=
  match v with
  | JUndefined | JNull => false
  | JBool b => b
  | JNum x => negb (PrimFloat.eqb x 0 || PrimFloat.is_nan x)
  | JStr s => negb (String.eqb s "")
  | JArr _ | JObj _ => true
  end.

(** [v.k] for the property names of this program ([focal_length],
    [image]): an object yields its own property or [undefined]; reading
    a property of [undefined] or [null] throws; primitives and arrays
    have neither name (their built-in properties are not modelled). *)
Definition get_prop (v : JsVal) (k : string) : Thrown + JsVal :=
  match v with
  | JUndefined =>
      inl (TypeError ("Cannot read properties of undefined (reading '" ++ k ++ "')"))
  | JNull =>
      inl (TypeError ("Cannot read properties of null (reading '" ++ k ++ "')"))
  | JObj props => inr (default JUndefined (props !! k))
  | _ => inr JUndefined
  end.

Definition is_number (v : JsVal) : bool :=
  match v with JNum _ => true | _ => false end.

(** An array all of whose items are numbers. *)
Definition is_numeric_sequence (v : JsVal) : bool :=
  match v with
  | JArr items => forallb is_number items
  | _ => false
  end.

Section ToString.

(** Number::toString (shortest round-trip decimal) is left abstract. *)
Variable number_to_string : float → string.

(** ToString, as applied by a template literal [`${v}`].  An object is
    converted through its [toString]: a parsed object that has an own
    property of that name (which cannot be a function) has no usable
    conversion and ToString throws; any other object prints as
    [[object Object]].  An array joins the conversions of its items,
    left to right, and throws where an item does. *)
Fixpoint to_string (v : JsVal) : Thrown + string :=
  match v with
  | JUndefined => inr "undefined"
  | JNull => inr "null"
  | JBool true => inr "true"
  | JBool false => inr "false"
  | JNum x => inr (number_to_string x)
  | JStr s => inr s
  | JArr items =>
      match
        (fix join_items (items : list JsVal) : Thrown + list string :=
           match items with
           | [] => inr []
           | item :: rest =>
               match
                 match item with
                 | JUndefined | JNull => inr ""
                 | _ => to_string item
                 end
               with
               | inl e => inl e
               | inr s =>
                   match join_items rest with
                   | inl e => inl e
                   | inr strs => inr (s :: strs)
                   end
               end
           end) items
      with
      | inl e => inl e
      | inr strs => inr (String.concat "," strs)
      end
  | JObj props =>
      match props !! "toString" with
      | Some _ => inl (TypeError "Cannot convert object to primitive value")
      | None => inr "[object Object]"
      end
  end.

End ToString.

(** The values that ToString converts without throwing. *)
Fixpoint printable (v : JsVal) : bool :=
  match v with
  | JArr items => forallb printable items
  | JObj props => match props !! "toString" with Some _ => false | None => true end
  | _ => true
  end.

End Js.

(* ===================================================================== *)
(** ** The component: [src/App.js] *)
(* ===================================================================== *)

Module App.
Import Js.

(** The three [useState] cells of [App]. *)
Record AppState : Type := mkState {
  inputs : gmap string string;
  focalLength : string;
  plotImage : JsVal
}.

(** What a handler does to the outside world, in order. *)
Inductive Effect : Type :=
| PreventDefault
| Post (url : string) (body : JsVal)
| ConsoleError (label : string) (error : Thrown).

(** The result of running a piece of the component: how it completed,
    the state it left and the effects it performed. *)
Record Run (A : Type) : Type := mkRun {
  outcome : Thrown + A;
  state : AppState;
  effects : list Effect
}.
Arguments mkRun {A} _ _ _.
Arguments outcome {A} _.
Arguments state {A} _.
Arguments effects {A} _.

(** Computations over the component state that may throw and that log
    their effects. *)
Definition Js (A : Type) : Type := AppState → Run A.

Definition ret {A} (a : A) : Js A := λ st, mkRun (inr a) st [].

Definition bind {A B} (m : Js A) (k : A → Js B) : Js B := λ st,
  let r := m st in
  match outcome r with
  | inl e => mkRun (inl e) (state r) (effects r)
  | inr a => let r' := k a (state r) in
             mkRun (outcome r') (state r') (effects r ++ effects r')
  end.

Definition throw {A} (e : Thrown) : Js A := λ st, mkRun (inl e) st [].

Definition lift {A} (x : Thrown + A) : Js A :=
  match x with inl e => throw e | inr a => ret a end.

Definition perform (ef : Effect) : Js unit := λ st, mkRun (inr tt) st [ef].

(** [try { body } catch (error) { handler(error) }] *)
Definition try_catch {A} (body : Js A) (handler : Thrown → Js A) : Js A := λ st,
  let r := body st in
  match outcome r with
  | inl e => let r' := handler e (state r) in
             mkRun (outcome r') (state r') (effects r ++ effects r')
  | inr a => r
  end.

#[local] Notation "x ← m ; k" := (bind m (λ x, k))
  (at level 20, m at level 100, k at level 200, only parsing).
#[local] Notation "m ;; k" := (bind m (λ _, k))
  (at level 100, k at level 200, right associativity, only parsing).

Definition initial_inputs : gmap string string :=
  list_to_map
    [("spacings", ""); ("thicknesses", ""); ("diameter", ""); ("voltages", "");
     ("angle", ""); ("offset", ""); ("energy", ""); ("numDatapoints", "")].

Definition initial : AppState := mkState initial_inputs "" (JStr "").

(** [inputs.k] *)
Definition field (ins : gmap string string) (k : string) : JsVal :=
  from_option JStr JUndefined (ins !! k).

Definition setInputs (f : gmap string string → gmap string string) : Js unit :=
  λ st, mkRun (inr tt) (mkState (f (inputs st)) (focalLength st) (plotImage st)) [].

Definition setFocalLength (s : string) : Js unit :=
  λ st, mkRun (inr tt) (mkState (inputs st) s (plotImage st)) [].

Definition setPlotImage (v : JsVal) : Js unit :=
  λ st, mkRun (inr tt) (mkState (inputs st) (focalLength st) v) [].

(** [handleChange]: [name] and [value] are those of the event's target. *)
Definition handleChange (name value : string) : Js unit :=
  setInputs (λ ins, <[name := value]> ins).

Definition focal_length_url : string := "http://localhost:5000/calculate_focal_length".
Definition plot_ray_url : string := "http://localhost:5000/plot_ray".

Definition focal_length_fields : list string :=
  ["spacings"; "thicknesses"; "diameter"; "voltages"].

Definition plot_ray_fields : list string :=
  ["spacings"; "thicknesses"; "diameter"; "voltages";
   "angle"; "offset"; "energy"; "numDatapoints"].

(** The object literal [{ k: inputs.k, ... }] over the given names. *)
Definition request_of (names : list string) (ins : gmap string string) : JsVal :=
  JObj (list_to_map (List.map (λ k, (k, field ins k)) names)).

Definition focal_length_request : gmap string string → JsVal :=
  request_of focal_length_fields.

Definition plot_ray_request : gmap string string → JsVal :=
  request_of plot_ray_fields.

Section Handlers.

Variable number_to_string : float → string.

(** [axios.post(url, body)] awaited: the backend's answer, either the
    [data] of the response or the reason of the rejection. *)
Variable post : string → JsVal → Thrown + JsVal.

Definition axios_post (url : string) (body : JsVal) : Js JsVal :=
  perform (Post url body) ;; lift (post url body).

Definition console_error (label : string) (error : Thrown) : Js unit :=
  perform (ConsoleError label error).

(** [handleFocalLengthCalculation], with [ins] the [inputs] of the
    render the handler was created in. *)
Definition handleFocalLengthCalculation (ins : gmap string string) : Js unit :=
  perform PreventDefault ;;
  try_catch
    (data ← axios_post focal_length_url (focal_length_request ins) ;
     focal_length ← lift (get_prop data "focal_length") ;
     shown ← lift (to_string number_to_string focal_length) ;
     setFocalLength ("System Focal Length: " ++ shown ++ " meters"))
    (λ error, console_error "Error fetching focal length:" error).

(** [handleRayPlotting] *)
Definition handleRayPlotting (ins : gmap string string) : Js unit :=
  perform PreventDefault ;;
  try_catch
    (data ← axios_post plot_ray_url (plot_ray_request ins) ;
     image ← lift (get_prop data "image") ;
     setPlotImage image)
    (λ error, console_error "Error plotting ray:" error).

(** A click on one of the two buttons runs the handler of the current
    render on the current state. *)
Definition click_focal_length (st : AppState) : Run unit :=
  handleFocalLengthCalculation (inputs st) st.

Definition click_plot_ray (st : AppState) : Run unit :=
  handleRayPlotting (inputs st) st.

End Handlers.

(** The part of the view that depends on the state. *)
Inductive Node : Type :=
| Value (v : JsVal)
| Paragraph (children : string)
| Image (src : JsVal) (alt : string).

(** [v && <element/>] *)
Definition js_and (v : JsVal) (element : Node) : Node :=
  if truthy v then element else Value v.

Record View : Type := mkView {
  field_values : list (string * JsVal);
  focal_slot : Node;
  plot_slot : Node
}.

Definition render (st : AppState) : View :=
  mkView
    (List.map (λ k, (k, field (inputs st) k)) plot_ray_fields)
    (js_and (JStr (focalLength st)) (Paragraph (focalLength st)))
    (js_and (plotImage st) (Image (plotImage st) "Electron Ray Trace")).

(** The request bodies a run sent, in order. *)
Definition posted {A} (r : Run A) : list (string * JsVal) :=
  omap (λ ef, match ef with Post url body => Some (url, body) | _ => None end)
       (effects r).

(** The errors a run wrote to the console, in order. *)
Definition logged {A} (r : Run A) : list (string * Thrown) :=
  omap (λ ef, match ef with ConsoleError l e => Some (l, e) | _ => None end)
       (effects r).

(** *** Sample runs *)

(** The form filled in field by field, through [handleChange]. *)
Definition type_all (entries : list (string * string)) : Js unit :=
  foldr (λ entry k, handleChange entry.1 entry.2 ;; k) (ret tt) entries.

Definition typed_form : AppState :=
  state (type_all
    [("spacings", "0.01,0.02,0.01"); ("thicknesses", "0.005,0.005,0.005");
     ("diameter", "0.02"); ("voltages", "0,100,0"); ("angle", "0.01");
     ("offset", "0.001"); ("energy", "10"); ("numDatapoints", "50")] initial).

(** The same form after the four trajectory fields were edited. *)
Definition retyped_form : AppState :=
  state (type_all
    [("angle", "0.5"); ("offset", "0"); ("energy", "2000"); ("numDatapoints", "3")]
    typed_form).

(** A state that already shows a focal length and a plot. *)
Definition shown_before : AppState :=
  mkState (inputs typed_form) "System Focal Length: 0.25 meters"
          (JStr "data:image/png;base64,iVBORw0KGgo=").

(** A backend that cannot be reached. *)
Definition refusing_backend (url : string) (body : JsVal) : Thrown + JsVal :=
  inl (Rejection (JStr "Network Error")).

(** A backend that answers with sample points and no image. *)
Definition points_backend (url : string) (body : JsVal) : Thrown + JsVal :=
  inr (JObj {[ "points" :=
    JArr [JArr [JNum 0; JNum 0.25]; JArr [JNum 0.5; JNum 0.125]] ]}).

(** A backend that answers with a rendered image. *)
Definition image_backend (url : string) (body : JsVal) : Thrown + JsVal :=
  inr (JObj {[ "image" := JStr "data:image/png;base64,iVBORw0KGgo=" ]}).

(** A backend whose focal length is an object with an own [toString]
    property, which no template literal can print. *)
Definition unprintable_backend (url : string) (body : JsVal) : Thrown + JsVal :=
  inr (JObj {[ "focal_length" := JObj {[ "toString" := JStr "x" ]} ]}).

(** The sample backends send no number as a focal length, so the sample
    runs never print one. *)
Definition no_number_shown (x : float) : string := "".

(** *** The component over a whole session *)

(** What can happen to the mounted component: a change event on an input
    (with the [name] and [value] of its target), or a click on one of
    the two buttons, together with what the backend answered to the
    request of that click. *)
Inductive Action : Type :=
| Typed (name value : string)
| FocalLengthClicked (answer : Thrown + JsVal)
| RayPlotClicked (answer : Thrown + JsVal).

Definition is_typed (a : Action) : bool :=
  match a with Typed _ _ => true | _ => false end.

Definition is_focal_length_click (a : Action) : bool :=
  match a with FocalLengthClicked _ => true | _ => false end.

Definition is_ray_plot_click (a : Action) : bool :=
  match a with RayPlotClicked _ => true | _ => false end.

(** The handler that React runs for an action, on the current state. *)
Definition dispatch (number_to_string : float → string) (a : Action)
    (st : AppState) : Run unit :=
  match a with
  | Typed name value => handleChange name value st
  | FocalLengthClicked answer =>
      click_focal_length number_to_string (λ _ _, answer) st
  | RayPlotClicked answer => click_plot_ray (λ _ _, answer) st
  end.

(** The actions of a session in order: the state they lead to and all the
    effects performed.  A click is taken together with the arrival of
    its answer; two requests in flight at once are not modelled. *)
Fixpoint session (number_to_string : float → string) (actions : list Action)
    (st : AppState) : AppState * list Effect :=
  match actions with
  | [] => (st, [])
  | a :: rest =>
      let r := dispatch number_to_string a st in
      let '(st', log) := session number_to_string rest (state r) in
      (st', (effects r ++ log)%list)
  end.

(** The property [key] of the data of an answer, when the request was
    fulfilled and the property can be read. *)
Definition readable (key : string) (answer : Thrown + JsVal) : option JsVal :=
  match answer with
  | inl _ => None
  | inr data => match get_prop data key with inl _ => None | inr v => Some v end
  end.

(** The own property names of an object. *)
Definition own_keys (v : JsVal) : gset string :=
  match v with JObj props => dom props | _ => ∅ end.

(** A focal-length click whose answer could be read and printed. *)
Definition focal_length_arrived (a : Action) : bool :=
  match a with
  | FocalLengthClicked answer =>
      match readable "focal_length" answer with
      | Some v => printable v
      | None => false
      end
  | _ => false
  end.

(** A session that types, fails to plot, gets a focal length, and types
    again. *)
Definition sample_session : list Action :=
  [Typed "spacings" "0.01"; RayPlotClicked (inl (Rejection (JStr "Network Error")));
   FocalLengthClicked (inr (JObj {[ "focal_length" := JStr "0.25" ]}));
   Typed "energy" "10"].

End App.


(* ===================================================================== *)
(** ** The simulation core behind the two endpoints *)
(* ===================================================================== *)

(** The engine is described by the specification only (sections 3 to 7).
    Lengths, voltages and energies are rationals in lowest terms ([Qc]),
    so that the definitions run. *)

Module Core.

#[local] Open Scope Qc_scope.

(** Modelled from the spec: the error taxonomy of section 7. *)
Inductive CoreError : Type :=
| ValidationError
| DomainError
| NumericalInstabilityError.

(** Modelled from the spec: ElectrodeSegment of section 3, the gap before
    an electrode and the electrode's thickness. *)
Record ElectrodeSegment : Type := mkSegment { spacing : Qc; thickness : Qc }.

(** Modelled from the spec: LensStack of section 3, the ordered segments
    and the aperture diameter they share. *)
Record LensStack : Type := mkStack {
  segments : list ElectrodeSegment;
  apertureDiameter : Qc
}.

(** Modelled from the spec: VoltageProfile of section 3, one voltage per
    segment, in the order of the stack. *)
Definition VoltageProfile : Type := list Qc.

(** Modelled from the spec: the value (V(z), V'(z), V''(z)) of the
    PotentialField of section 3. *)
Record FieldValue : Type := mkField { V : Qc; V' : Qc; V'' : Qc }.

(** Modelled from the spec: FocalLength of section 3, a scalar in metres
    or the "undefined" result of a lens that does not converge. *)
Inductive FocalLength : Type :=
| Finite (meters : Qc)
| Undefined.

(** What the engine records of its work on the field. *)
Inductive Event : Type :=
| FieldBuilt
| PotentialAt (z : Qc).

(** A computation of the engine: its result or its error, and the field
    work done on the way. *)
Definition Sim (A : Type) : Type := (CoreError + A) * list Event.

Definition ret {A} (a : A) : Sim A := (inr a, []).

Definition fail {A} (e : CoreError) : Sim A := (inl e, []).

Definition bind {A B} (m : Sim A) (k : A → Sim B) : Sim B :=
  match m with
  | (inl e, log) => (inl e, log)
  | (inr a, log) => let '(x, log') := k a in (x, (log ++ log')%list)
  end.

Definition lift {A} (x : CoreError + A) : Sim A := (x, []).

Definition record (ev : Event) : Sim unit := (inr tt, [ev]).

(** Whether a computation ended in the given error. *)
Definition raises {A} (e : CoreError) (m : Sim A) : bool :=
  match fst m, e with
  | inl ValidationError, ValidationError
  | inl DomainError, DomainError
  | inl NumericalInstabilityError, NumericalInstabilityError => true
  | _, _ => false
  end.

#[local] Notation "x ← m ; k" := (bind m (λ x, k))
  (at level 20, m at level 100, k at level 200, only parsing).
#[local] Notation "m ;; k" := (bind m (λ _, k))
  (at level 100, k at level 200, right associativity, only parsing).

Definition Qcleb (x y : Qc) : bool := Qle_bool x y.

Definition Qcltb (x y : Qc) : bool := negb (Qle_bool y x).

Definition Qceqb (x y : Qc) : bool := Qeq_bool x y.

Definition Qcabs (x : Qc) : Qc := if Qcleb 0 x then x else - x.

Definition Qnat (n : nat) : Qc := Qc_of_Z (Z.of_nat n).

Definition half : Qc := Q2Qc (1 # 2).
Definition sixth : Qc := Q2Qc (1 # 6).
Definition two : Qc := Q2Qc 2.
Definition four : Qc := Q2Qc 4.

Definition is_nil {A} (l : list A) : bool :=
  match l with [] => true | _ => false end.

(** Modelled from the spec: the [build] operation of GeometryModel /
    VoltageProfile (section 4.1), whose code is not in [src/].  It fails
    with ValidationError when the sequences have mismatched lengths, a
    spacing is negative, a thickness or the diameter is not positive, or
    a sequence is empty; otherwise it pairs the layout with the voltages. *)
Definition build (spacings thicknesses : list Qc) (diameter : Qc) (voltages : list Qc)
  : CoreError + (LensStack * VoltageProfile) :=
  if negb (Nat.eqb (length spacings) (length thicknesses))
     || negb (Nat.eqb (length spacings) (length voltages))
     || negb (Nat.eqb (length thicknesses) (length voltages))
     || existsb (λ s, Qcltb s 0) spacings
     || existsb (λ t, Qcleb t 0) thicknesses
     || Qcleb diameter 0
     || is_nil spacings || is_nil thicknesses || is_nil voltages
  then inl ValidationError
  else inr (mkStack (zip_with mkSegment spacings thicknesses) diameter, voltages).

(** Modelled from the spec: z_max, the sum of all spacings and
    thicknesses (section 3). *)
Definition z_max (stack : LensStack) : Qc :=
  foldr (λ seg acc, spacing seg + thickness seg + acc) 0 (segments stack).

(** Modelled from the spec: the exit plane of the last electrode
    (section 4.3), walking the stack from z = 0. *)
Definition lens_exit (stack : LensStack) : Qc :=
  fold_left (λ z seg, z + spacing seg + thickness seg) (segments stack) 0.

(** Modelled from the spec: the working-distance offset from the lens
    exit to z_max (section 4.3). *)
Definition working_distance (stack : LensStack) : Qc :=
  z_max stack - lens_exit stack.

(** Modelled from the spec: what section 4.3 calls configured, the
    epsilon on the exit slope, the sanity bound on |r| and |r'|, and the
    minimum resolution in steps per unit length. *)
Record SolverConfig : Type := mkConfig {
  epsilon : Qc;
  sanity_bound : Qc;
  min_resolution : Qc
}.

Section Engine.

(** The closed form of the gap transition is an implementation choice
    (section 4.2): [shape d g u] is the blend weight between the two
    adjacent electrode voltages and its first two derivatives in z, at
    distance [u] into a gap of length [g] of a bore of diameter [d]. *)
Variable shape : Qc → Qc → Qc → Qc * Qc * Qc.

Variable cfg : SolverConfig.

(** Modelled from the spec: the on-axis potential of section 4.2, whose
    code is not in [src/].  Each electrode holds its voltage over its
    thickness; each gap blends from the voltage before it ([prev], the
    first electrode's own voltage for the leading gap) to the voltage of
    the electrode after it, by a shape that sees the diameter, the gap
    length and the position within the gap only. *)
Fixpoint field_walk (d prev : Qc) (layout : list (ElectrodeSegment * Qc)) (z : Qc)
  : FieldValue :=
  match layout with
  | [] => mkField prev 0 0
  | (seg, v) :: rest =>
      if Qcltb z (spacing seg) then
        let '(s, s1, s2) := shape d (spacing seg) z in
        mkField (prev + (v - prev) * s) ((v - prev) * s1) ((v - prev) * s2)
      else if Qcleb z (spacing seg + thickness seg) then mkField v 0 0
      else field_walk d v rest (z - (spacing seg + thickness seg))
  end.

(** Modelled from the spec: [potential_at] of section 4.2, whose code is
    not in [src/]; DomainError outside [0, z_max]. *)
Definition potential_at (stack : LensStack) (vp : VoltageProfile) (z : Qc)
  : Sim FieldValue :=
  record (PotentialAt z) ;;
  if Qcleb 0 z && Qcleb z (z_max stack)
  then ret (field_walk (apertureDiameter stack) (hd 0 vp)
                       (combine (segments stack) vp) z)
  else fail DomainError.

(** Modelled from the spec: the paraxial ray equation of section 4.3,
    [r'' = -(V'/(2 Φ)) r' - (V''/(4 Φ)) r], with [Φ = V + ref] the
    potential seen by the electron ([ref = 0] for the reference ray).
    Where [Φ = 0] the equation is singular and its value not finite,
    which section 7 makes a NumericalInstabilityError. *)
Definition paraxial (stack : LensStack) (vp : VoltageProfile) (ref z r p : Qc)
  : Sim Qc :=
  f ← potential_at stack vp z ;
  if Qceqb (V f + ref) 0 then fail NumericalInstabilityError
  else ret (- (V' f / (two * (V f + ref))) * p
            - (V'' f / (four * (V f + ref))) * r).

(** Modelled from the spec: the sanity bound of section 4.3 on |r| and
    |r'|, NumericalInstabilityError beyond it. *)
Definition sanity_check (y : Qc * Qc) : Sim (Qc * Qc) :=
  if Qcleb (Qcabs (fst y)) (sanity_bound cfg)
     && Qcleb (Qcabs (snd y)) (sanity_bound cfg)
  then ret y
  else fail NumericalInstabilityError.

(** Modelled from the spec: the fixed-step 4th-order integrator of
    section 4.3, one classical Runge-Kutta step on (r, r'). *)
Definition rk4_step (stack : LensStack) (vp : VoltageProfile) (ref h z : Qc)
    (y : Qc * Qc) : Sim (Qc * Qc) :=
  let '(r, p) := y in
  a1 ← paraxial stack vp ref z r p ;
  let p2 := p + h * half * a1 in
  a2 ← paraxial stack vp ref (z + h * half) (r + h * half * p) p2 ;
  let p3 := p + h * half * a2 in
  a3 ← paraxial stack vp ref (z + h * half) (r + h * half * p2) p3 ;
  let p4 := p + h * a3 in
  a4 ← paraxial stack vp ref (z + h) (r + h * p3) p4 ;
  sanity_check (r + h * sixth * (p + two * p2 + two * p3 + p4),
         p + h * sixth * (a1 + two * a2 + two * a3 + a4)).

(** Modelled from the spec: the integration loop of section 4.3, [n]
    steps of length [h] from grid index [i]. *)
Fixpoint integrate (stack : LensStack) (vp : VoltageProfile) (ref h : Qc)
    (n i : nat) (y : Qc * Qc) : Sim (Qc * Qc) :=
  match n with
  | O => ret y
  | S n' =>
      y' ← rk4_step stack vp ref h (Qnat i * h) y ;
      integrate stack vp ref h n' (S i) y'
  end.

(** Modelled from the spec: the step count of section 4.3, from the
    domain length and the configured minimum resolution. *)
Definition step_count (zmax : Qc) : nat :=
  Nat.max 1 (Z.to_nat (Qceiling (zmax * min_resolution cfg))).

(** Modelled from the spec: the reference ray r(0) = 1, r'(0) = 0 of
    section 4.3 carried to z_max. *)
Definition exit_state (stack : LensStack) (vp : VoltageProfile) : Sim (Qc * Qc) :=
  let n := step_count (z_max stack) in
  integrate stack vp 0 (z_max stack / Qnat n) n 0 (1, 0).

(** Modelled from the spec: the last step of section 4.3, from r(z_max)
    and r'(z_max) to the focal length, "undefined" when the exit slope
    is within epsilon of 0. *)
Definition focal_of_exit (wd r p : Qc) : FocalLength :=
  if Qcleb (Qcabs p) (epsilon cfg) then Undefined
  else Finite (- r / p + wd).

(** Modelled from the spec: FocalLengthSolver (section 4.3), whose code
    is not in [src/]. *)
Definition solve_focal_length (stack : LensStack) (vp : VoltageProfile)
  : Sim FocalLength :=
  y ← exit_state stack vp ;
  ret (focal_of_exit (working_distance stack) (fst y) (snd y)).

(** Modelled from the spec: the sampling loop of section 4.4, the
    samples from grid index [i] on, one Runge-Kutta step per sample
    interval. *)
Fixpoint sample (stack : LensStack) (vp : VoltageProfile) (ref h : Qc)
    (n i : nat) (y : Qc * Qc) : Sim (list (Qc * Qc)) :=
  match n with
  | O => ret [(Qnat i * h, fst y)]
  | S n' =>
      y' ← rk4_step stack vp ref h (Qnat i * h) y ;
      rest ← sample stack vp ref h n' (S i) y' ;
      ret ((Qnat i * h, fst y) :: rest)
  end.

(** Modelled from the spec: TrajectoryIntegrator (section 4.4), whose
    code is not in [src/].  The ray starts at r = offset with slope
    angle; the release energy fixes the reference of the potential so
    that the kinetic energy at z = 0 is [energy]. *)
Definition integrate_trajectory (stack : LensStack) (vp : VoltageProfile)
    (angle offset energy : Qc) (numDatapoints : Z) : Sim (list (Qc * Qc)) :=
  if (numDatapoints <? 2)%Z || Qcleb energy 0 then fail ValidationError
  else
    let n := Nat.pred (Z.to_nat numDatapoints) in
    f0 ← potential_at stack vp 0 ;
    sample stack vp (energy - V f0) (z_max stack / Qnat n) n 0 (offset, angle).

(** Modelled from the spec: the two operations of SimulationFacade
    (section 4.5), whose code is not in [src/]: validate (4.1), build
    the field (4.2), run the solver (4.3 or 4.4). *)
Definition focal_length (spacings thicknesses : list Qc) (diameter : Qc)
    (voltages : list Qc) : Sim FocalLength :=
  sv ← lift (build spacings thicknesses diameter voltages) ;
  record FieldBuilt ;;
  solve_focal_length (fst sv) (snd sv).

Definition trace (spacings thicknesses : list Qc) (diameter : Qc)
    (voltages : list Qc) (angle offset energy : Qc) (numDatapoints : Z)
  : Sim (list (Qc * Qc)) :=
  sv ← lift (build spacings thicknesses diameter voltages) ;
  record FieldBuilt ;;
  integrate_trajectory (fst sv) (snd sv) angle offset energy numDatapoints.

End Engine.

(** *** Predicates used in the statements *)

(** The input that section 4.1 rejects. *)
Definition invalid (spacings thicknesses : list Qc) (diameter : Qc)
    (voltages : list Qc) : Prop :=
  (length spacings ≠ length thicknesses ∨ length spacings ≠ length voltages
   ∨ length thicknesses ≠ length voltages)
  ∨ Exists (λ s, s < 0) spacings
  ∨ Exists (λ t, t ≤ 0) thicknesses
  ∨ diameter ≤ 0
  ∨ (spacings = [] ∨ thicknesses = [] ∨ voltages = []).

(** The input that section 4.1 accepts. *)
Record valid (spacings thicknesses : list Qc) (diameter : Qc)
    (voltages : list Qc) : Prop := {
  valid_thicknesses_length : length thicknesses = length spacings;
  valid_voltages_length : length voltages = length spacings;
  valid_spacings : Forall (λ s, 0 ≤ s) spacings;
  valid_thicknesses : Forall (λ t, 0 < t) thicknesses;
  valid_diameter : 0 < diameter;
  valid_nonempty : spacings ≠ []
}.

(** A computation that can only fail by tripping the sanity bound. *)
Definition only_unstable {A} (m : Sim A) : Prop :=
  ∀ e, m.1 = inl e → e = NumericalInstabilityError.

(** [n] grid points of step [h] from index [i]. *)
Definition grid (h : Qc) (i n : nat) : list Qc :=
  (λ k, Qnat k * h) <$> seq i n.

(** *** Sample lenses *)

(** A gap shape for running the engine: the quintic smooth ramp
    [6 t^5 - 15 t^4 + 10 t^3] in [t = u / g]. *)
Definition smooth_ramp (d g u : Qc) : Qc * Qc * Qc :=
  let t := u / g in
  (Q2Qc 6 * t ^ 5 - Q2Qc 15 * t ^ 4 + Q2Qc 10 * t ^ 3,
   (Q2Qc 30 * t ^ 4 - Q2Qc 60 * t ^ 3 + Q2Qc 30 * t ^ 2) / g,
   (Q2Qc 120 * t ^ 3 - Q2Qc 180 * t ^ 2 + Q2Qc 60 * t) / (g * g)).

(** epsilon 1e-6, sanity bound 1e6, 40 steps per metre. *)
Definition sample_config : SolverConfig :=
  mkConfig (Q2Qc (1 # 1000000)) (Q2Qc 1000000) (Q2Qc 40).

Definition cm (n : Z) : Qc := Q2Qc (n # 100).

(** Two electrodes at 100 V and 200 V: gaps of 1 cm and 2 cm,
    thickness 1 cm each, bore 2 cm. *)
Definition two_electrode_stack : LensStack :=
  mkStack [mkSegment (cm 1) (cm 1); mkSegment (cm 2) (cm 1)] (cm 2).

Definition two_electrode_voltages : VoltageProfile := [Q2Qc 100; Q2Qc 200].


(** The single electrode of section 8: spacing 0.01, thickness 0.01,
    diameter 0.02, 100 V. *)
Definition single_electrode_stack : LensStack :=
  mkStack [mkSegment (cm 1) (cm 1)] (cm 2).

End Core.

(* ===================================================================== *)
(** ** Properties of the component *)
(* ===================================================================== *)

Module AppFacts.
Import Js App.

Section Runs.

Variable number_to_string : float → string.
Variable post : string → JsVal → Thrown + JsVal.

(** The four ways a focal-length submission can go. *)
Lemma focal_run (ins : gmap string string) (st : AppState) :
  handleFocalLengthCalculation number_to_string post ins st =
  let body := focal_length_request ins in
  let sent := [PreventDefault; Post focal_length_url body] in
  let caught e :=
    mkRun (inr tt) st (sent ++ [ConsoleError "Error fetching focal length:" e]) in
  match post focal_length_url body with
  | inl e => caught e
  | inr data =>
      match get_prop data "focal_length" with
      | inl e => caught e
      | inr v =>
          match to_string number_to_string v with
          | inl e => caught e
          | inr shown =>
              mkRun (inr tt)
                (mkState (inputs st)
                   ("System Focal Length: " ++ shown ++ " meters")
                   (plotImage st))
                sent
          end
      end
  end.
Proof.
  unfold handleFocalLengthCalculation, try_catch, axios_post, console_error,
    bind, perform, lift, throw, ret, setFocalLength.
  cbn [outcome state effects].
  destruct (post focal_length_url (focal_length_request ins)) as [e|data];
    cbn [outcome state effects]; [reflexivity|].
  destruct (get_prop data "focal_length") as [e|v];
    cbn [outcome state effects]; [reflexivity|].
  destruct (to_string number_to_string v); reflexivity.
Qed.

(** The three ways a ray-plot submission can go. *)
Lemma plot_run (ins : gmap string string) (st : AppState) :
  handleRayPlotting post ins st =
  let body := plot_ray_request ins in
  let sent := [PreventDefault; Post plot_ray_url body] in
  let caught e :=
    mkRun (inr tt) st (sent ++ [ConsoleError "Error plotting ray:" e]) in
  match post plot_ray_url body with
  | inl e => caught e
  | inr data =>
      match get_prop data "image" with
      | inl e => caught e
      | inr v => mkRun (inr tt) (mkState (inputs st) (focalLength st) v) sent
      end
  end.
Proof.
  unfold handleRayPlotting, try_catch, axios_post, console_error,
    bind, perform, lift, throw, ret, setPlotImage.
  cbn [outcome state effects].
  destruct (post plot_ray_url (plot_ray_request ins)) as [e|data];
    cbn [outcome state effects]; [reflexivity|].
  destruct (get_prop data "image") as [e|v]; reflexivity.
Qed.

End Runs.

Lemma request_of_lookup (names : list string) (ins : gmap string string) (k : string) :
  k ∈ names → get_prop (request_of names ins) k = inr (field ins k).
Proof.
  intros Hk. unfold request_of, get_prop. f_equal.
  induction names as [|n names IH]; [by apply elem_of_nil in Hk|].
  rewrite map_cons, list_to_map_cons. destruct (decide (n = k)) as [->|Hne].
  - by rewrite lookup_insert_eq.
  - rewrite lookup_insert_ne by done. apply IH.
    apply elem_of_cons in Hk as [->|]; done.
Qed.

Lemma request_of_other (names : list string) (ins : gmap string string) (k : string) :
  k ∉ names → get_prop (request_of names ins) k = inr JUndefined.
Proof.
  intros Hk. unfold request_of, get_prop. f_equal.
  induction names as [|n names IH]; [done|].
  rewrite map_cons, list_to_map_cons. apply not_elem_of_cons in Hk as [Hne Hk].
  rewrite lookup_insert_ne by done. by apply IH.
Qed.

Lemma field_not_numeric (ins : gmap string string) (k : string) :
  is_numeric_sequence (field ins k) = false.
Proof. unfold field. by destruct (ins !! k). Qed.

(** C1 (as the code has it): each handler posts exactly one body; every
    field of that body is the text of the form field of the same name,
    verbatim, as a string; no property of either body is a sequence of
    numbers.  The comma-separated text is not parsed by the component. *)
Theorem request_fields_are_form_text
    (number_to_string : float → string) (post : string → JsVal → Thrown + JsVal)
    (st : AppState) :
  posted (click_focal_length number_to_string post st)
    = [(focal_length_url, focal_length_request (inputs st))] ∧
  posted (click_plot_ray post st)
    = [(plot_ray_url, plot_ray_request (inputs st))] ∧
  (∀ k s, k ∈ focal_length_fields → inputs st !! k = Some s →
     get_prop (focal_length_request (inputs st)) k = inr (JStr s)) ∧
  (∀ k s, k ∈ plot_ray_fields → inputs st !! k = Some s →
     get_prop (plot_ray_request (inputs st)) k = inr (JStr s)) ∧
  (∀ k v, get_prop (focal_length_request (inputs st)) k = inr v
          ∨ get_prop (plot_ray_request (inputs st)) k = inr v →
     is_numeric_sequence v = false).
Proof.
  unfold click_focal_length, click_plot_ray, posted.
  rewrite focal_run, plot_run. cbv zeta.
  split; [|split; [|split; [|split]]].
  - destruct (post focal_length_url _) as [e|data]; [reflexivity|].
    destruct (get_prop data _) as [?|v]; [reflexivity|].
    destruct (to_string _ v); reflexivity.
  - destruct (post plot_ray_url _) as [e|data]; [reflexivity|].
    destruct (get_prop data _); reflexivity.
  - intros k s Hk Hs. unfold focal_length_request.
    rewrite request_of_lookup by done. unfold field. by rewrite Hs.
  - intros k s Hk Hs. unfold plot_ray_request.
    rewrite request_of_lookup by done. unfold field. by rewrite Hs.
  - intros k v [H|H].
    + unfold focal_length_request in H.
      destruct (decide (k ∈ focal_length_fields)).
      * rewrite request_of_lookup in H by done. injection H as <-.
        apply field_not_numeric.
      * rewrite request_of_other in H by done. by injection H as <-.
    + unfold plot_ray_request in H.
      destruct (decide (k ∈ plot_ray_fields)).
      * rewrite request_of_lookup in H by done. injection H as <-.
        apply field_not_numeric.
      * rewrite request_of_other in H by done. by injection H as <-.
Qed.

Lemma request_fields_are_form_text_witness :
  inputs typed_form !! "spacings" = Some "0.01,0.02,0.01" ∧
  get_prop (focal_length_request (inputs typed_form)) "spacings"
    = inr (JStr "0.01,0.02,0.01") ∧
  is_numeric_sequence (JStr "0.01,0.02,0.01") = false.
Proof.
  destruct (request_fields_are_form_text no_number_shown refusing_backend typed_form)
    as (_ & _ & Hf & _ & Hn).
  assert (Hs : inputs typed_form !! "spacings" = Some "0.01,0.02,0.01")
    by (vm_compute; reflexivity).
  assert (Hk : "spacings" ∈ focal_length_fields) by (apply list_elem_of_here).
  split; [exact Hs|]. split; [exact (Hf _ _ Hk Hs)|].
  exact (Hn "spacings" _ (or_introl (Hf _ _ Hk Hs))).
Defined.

(** C1, counterexample: with "0.01,0.02,0.01" typed as spacings and
    "0,100,0" as voltages, the body posted for the focal length carries
    those very strings, and neither is a sequence of numbers. *)
Lemma request_bodies_are_not_parsed :
  posted (click_focal_length no_number_shown image_backend typed_form)
    = [(focal_length_url,
        JObj (list_to_map
          [("spacings", JStr "0.01,0.02,0.01");
           ("thicknesses", JStr "0.005,0.005,0.005");
           ("diameter", JStr "0.02");
           ("voltages", JStr "0,100,0")]))] ∧
  get_prop (plot_ray_request (inputs typed_form)) "voltages" = inr (JStr "0,100,0") ∧
  is_numeric_sequence (JStr "0.01,0.02,0.01") = false ∧
  is_numeric_sequence (JStr "0,100,0") = false.
Proof. repeat split; vm_compute; reflexivity. Qed.

(** C2 (as the code has it): what the component takes from a ray-plot
    response is its [image] property, stored as it is in [plotImage] and
    shown as the [src] of an [<img>] when truthy; nothing else of the
    response is read, and the component renders no points itself. *)
Theorem plot_shows_the_response_image
    (post : string → JsVal → Thrown + JsVal) (st : AppState) (data img : JsVal) :
  post plot_ray_url (plot_ray_request (inputs st)) = inr data →
  get_prop data "image" = inr img →
  state (click_plot_ray post st) = mkState (inputs st) (focalLength st) img ∧
  plot_slot (render (state (click_plot_ray post st)))
    = (if truthy img then Image img "Electron Ray Trace" else Value img) ∧
  logged (click_plot_ray post st) = [].
Proof.
  intros Hpost Himg. unfold click_plot_ray, logged.
  rewrite plot_run. cbv zeta. rewrite Hpost, Himg. done.
Qed.

Lemma plot_shows_the_response_image_witness :
  image_backend plot_ray_url (plot_ray_request (inputs typed_form))
    = inr (JObj {[ "image" := JStr "data:image/png;base64,iVBORw0KGgo=" ]}) ∧
  plot_slot (render (state (click_plot_ray image_backend typed_form)))
    = Image (JStr "data:image/png;base64,iVBORw0KGgo=") "Electron Ray Trace".
Proof.
  split; [reflexivity|].
  refine (proj1 (proj2 (plot_shows_the_response_image image_backend typed_form
            (JObj {[ "image" := JStr "data:image/png;base64,iVBORw0KGgo=" ]})
            (JStr "data:image/png;base64,iVBORw0KGgo=") _ _)));
    vm_compute; reflexivity.
Defined.

(** C2, counterexample: a response that delivers sample points and no
    image leaves [plotImage] undefined and nothing is drawn, while a
    response that delivers a rendered image is shown as delivered. *)
Lemma received_points_are_not_rendered :
  plotImage (state (click_plot_ray points_backend typed_form)) = JUndefined ∧
  plot_slot (render (state (click_plot_ray points_backend typed_form)))
    = Value JUndefined ∧
  plot_slot (render (state (click_plot_ray image_backend typed_form)))
    = Image (JStr "data:image/png;base64,iVBORw0KGgo=") "Electron Ray Trace".
Proof. repeat split; vm_compute; reflexivity. Qed.

(** C3 (as the code has it): when the request of a handler is rejected,
    the handler catches the rejection, writes it unchanged to
    [console.error] under the handler's label and completes normally;
    the request was posted once (no retry), the state is left as it was
    (no fallback value) and nothing else happened. *)
Theorem failed_request_is_caught_and_logged
    (number_to_string : float → string) (post : string → JsVal → Thrown + JsVal)
    (st : AppState) (e : Thrown) :
  (post focal_length_url (focal_length_request (inputs st)) = inl e →
   click_focal_length number_to_string post st
   = mkRun (inr tt) st
       [PreventDefault;
        Post focal_length_url (focal_length_request (inputs st));
        ConsoleError "Error fetching focal length:" e]) ∧
  (post plot_ray_url (plot_ray_request (inputs st)) = inl e →
   click_plot_ray post st
   = mkRun (inr tt) st
       [PreventDefault;
        Post plot_ray_url (plot_ray_request (inputs st));
        ConsoleError "Error plotting ray:" e]).
Proof.
  unfold click_focal_length, click_plot_ray.
  rewrite focal_run, plot_run. cbv zeta.
  split; intros ->; done.
Qed.

Lemma failed_request_is_caught_and_logged_witness :
  refusing_backend focal_length_url (focal_length_request (inputs typed_form))
    = inl (Rejection (JStr "Network Error")) ∧
  outcome (click_focal_length no_number_shown refusing_backend typed_form) = inr tt ∧
  logged (click_plot_ray refusing_backend typed_form)
    = [("Error plotting ray:", Rejection (JStr "Network Error"))].
Proof.
  destruct (failed_request_is_caught_and_logged no_number_shown refusing_backend
              typed_form (Rejection (JStr "Network Error"))) as [Hf Hp].
  split; [reflexivity|].
  split; [rewrite (Hf eq_refl)|rewrite (Hp eq_refl)]; reflexivity.
Defined.

(** C3, counterexample: against a backend that rejects every request,
    both handlers complete normally; the rejection does not reach the
    caller of the handler. *)
Lemma failure_is_not_propagated :
  refusing_backend focal_length_url (focal_length_request (inputs typed_form))
    = inl (Rejection (JStr "Network Error")) ∧
  outcome (click_focal_length no_number_shown refusing_backend typed_form) = inr tt ∧
  outcome (click_focal_length no_number_shown refusing_backend typed_form)
    ≠ inl (Rejection (JStr "Network Error")) ∧
  outcome (click_plot_ray refusing_backend typed_form) = inr tt ∧
  outcome (click_plot_ray refusing_backend typed_form)
    ≠ inl (Rejection (JStr "Network Error")).
Proof. repeat split; try (vm_compute; reflexivity); vm_compute; discriminate. Qed.

(** C9: two form states that agree on spacings, thicknesses, diameter
    and voltages post the same focal-length request, whatever their
    angle, offset, energy and numDatapoints; against the same backend
    the two submissions have the same effects and the same outcome, and
    they leave the same focal-length text when they started from the
    same one. *)
Theorem focal_request_ignores_trajectory_fields
    (number_to_string : float → string) (post : string → JsVal → Thrown + JsVal)
    (st1 st2 : AppState) :
  (∀ k, k ∈ focal_length_fields → inputs st1 !! k = inputs st2 !! k) →
  focalLength st1 = focalLength st2 →
  posted (click_focal_length number_to_string post st1)
    = posted (click_focal_length number_to_string post st2) ∧
  effects (click_focal_length number_to_string post st1)
    = effects (click_focal_length number_to_string post st2) ∧
  outcome (click_focal_length number_to_string post st1)
    = outcome (click_focal_length number_to_string post st2) ∧
  focalLength (state (click_focal_length number_to_string post st1))
    = focalLength (state (click_focal_length number_to_string post st2)).
Proof.
  intros Hagree Hshown.
  assert (Hreq : focal_length_request (inputs st1) = focal_length_request (inputs st2)).
  { unfold focal_length_request, request_of, focal_length_fields, field.
    cbn [List.map].
    rewrite !(Hagree "spacings"), !(Hagree "thicknesses"),
      !(Hagree "diameter"), !(Hagree "voltages");
      try reflexivity; unfold focal_length_fields; set_solver. }
  assert (Heff : effects (click_focal_length number_to_string post st1)
                 = effects (click_focal_length number_to_string post st2)).
  { unfold click_focal_length. rewrite !focal_run. cbv zeta. rewrite Hreq.
    destruct (post focal_length_url _) as [e|data]; [reflexivity|].
    destruct (get_prop data _) as [?|v]; [reflexivity|].
    destruct (to_string _ v); reflexivity. }
  split; [unfold posted; by rewrite Heff|]. split; [exact Heff|].
  unfold click_focal_length. rewrite !focal_run. cbv zeta. rewrite Hreq.
  destruct (post focal_length_url _) as [e|data]; [done|].
  destruct (get_prop data _) as [?|v]; [done|].
  destruct (to_string _ v); done.
Qed.

Lemma focal_request_ignores_trajectory_fields_witness :
  inputs typed_form !! "energy" ≠ inputs retyped_form !! "energy" ∧
  posted (click_focal_length no_number_shown image_backend typed_form)
    = posted (click_focal_length no_number_shown image_backend retyped_form).
Proof.
  split; [vm_compute; discriminate|].
  refine (proj1 (focal_request_ignores_trajectory_fields no_number_shown image_backend
                   typed_form retyped_form _ _)); [|reflexivity].
  intros k Hk. unfold focal_length_fields in Hk.
  repeat (apply elem_of_cons in Hk as [->|Hk]; [vm_compute; reflexivity|]).
  by apply elem_of_nil in Hk.
Defined.

(** C10: when the request of a handler is rejected, the state of the
    component after the handler is the state before it; the focal-length
    text, the plot image and the rendered view are unchanged.  More
    generally, whenever a handler wrote an error to the console (its
    catch branch ran), it left the state as it was. *)
Theorem failed_request_keeps_display
    (number_to_string : float → string) (post : string → JsVal → Thrown + JsVal)
    (st : AppState) (e : Thrown) :
  (post focal_length_url (focal_length_request (inputs st)) = inl e →
   state (click_focal_length number_to_string post st) = st ∧
   render (state (click_focal_length number_to_string post st)) = render st) ∧
  (post plot_ray_url (plot_ray_request (inputs st)) = inl e →
   state (click_plot_ray post st) = st ∧
   render (state (click_plot_ray post st)) = render st) ∧
  (logged (click_focal_length number_to_string post st) ≠ [] →
   state (click_focal_length number_to_string post st) = st) ∧
  (logged (click_plot_ray post st) ≠ [] →
   state (click_plot_ray post st) = st).
Proof.
  unfold click_focal_length, click_plot_ray, logged.
  rewrite focal_run, plot_run. cbv zeta.
  split; [|split; [|split]].
  - by intros ->.
  - by intros ->.
  - destruct (post focal_length_url _) as [e'|data]; [done|].
    destruct (get_prop data _) as [?|v]; [done|].
    destruct (to_string _ v); done.
  - destruct (post plot_ray_url _) as [e'|data]; [done|].
    destruct (get_prop data _); done.
Qed.

Lemma failed_request_keeps_display_witness :
  refusing_backend plot_ray_url (plot_ray_request (inputs shown_before))
    = inl (Rejection (JStr "Network Error")) ∧
  focalLength (state (click_focal_length no_number_shown refusing_backend shown_before))
    = "System Focal Length: 0.25 meters" ∧
  plotImage (state (click_plot_ray refusing_backend shown_before))
    = JStr "data:image/png;base64,iVBORw0KGgo=".
Proof.
  destruct (failed_request_keeps_display no_number_shown refusing_backend
              shown_before (Rejection (JStr "Network Error"))) as (Hf & Hp & _).
  split; [reflexivity|].
  split; [rewrite (proj1 (Hf eq_refl))|rewrite (proj1 (Hp eq_refl))]; reflexivity.
Defined.

End AppFacts.

(* ===================================================================== *)
(** ** Properties of the simulation core *)
(* ===================================================================== *)

Module CoreFacts.
Import Core.

#[local] Open Scope Qc_scope.

(** *** Rationals in lowest terms, read back as plain rationals *)

Lemma this_Q2Qc (q : Q) : (this (Q2Qc q) == q)%Q.
Proof. apply Qred_correct. Qed.
Lemma this_plus (x y : Qc) : (this (x + y) == this x + this y)%Q.
Proof. apply Qred_correct. Qed.
Lemma this_mult (x y : Qc) : (this (x * y) == this x * this y)%Q.
Proof. apply Qred_correct. Qed.
Lemma this_opp (x : Qc) : (this (- x) == - this x)%Q.
Proof. apply Qred_correct. Qed.
Lemma this_minus (x y : Qc) : (this (x - y) == this x - this y)%Q.
Proof. unfold Qcminus. rewrite this_plus, this_opp. reflexivity. Qed.

Ltac qc_push :=
  repeat first
    [ rewrite this_plus | rewrite this_minus | rewrite this_mult
    | rewrite this_opp | rewrite this_Q2Qc ].
Ltac qc_push_in H :=
  repeat first
    [ rewrite this_plus in H | rewrite this_minus in H | rewrite this_mult in H
    | rewrite this_opp in H | rewrite this_Q2Qc in H ].
(** Linear goals over [Qc], decided over [Q]. *)
Ltac qc_lra :=
  unfold half, sixth, two, four, Qcle, Qclt in *;
  repeat match goal with
         | H : (_ <= _)%Q |- _ => progress qc_push_in H
         | H : (_ < _)%Q |- _ => progress qc_push_in H
         end;
  qc_push; lra.

Lemma Qcleb_le (x y : Qc) : Qcleb x y = true ↔ x ≤ y.
Proof. unfold Qcleb, Qcle. apply Qle_bool_iff. Qed.

Lemma Qcleb_gt (x y : Qc) : Qcleb x y = false ↔ y < x.
Proof.
  rewrite <-not_true_iff_false, Qcleb_le. split.
  - apply Qcnot_le_lt.
  - apply Qclt_not_le.
Qed.

Lemma Qcltb_lt (x y : Qc) : Qcltb x y = true ↔ x < y.
Proof. unfold Qcltb. rewrite negb_true_iff. apply Qcleb_gt. Qed.

Lemma Qcltb_ge (x y : Qc) : Qcltb x y = false ↔ y ≤ x.
Proof. unfold Qcltb. rewrite negb_false_iff. apply Qcleb_le. Qed.




Lemma Qnat_nonneg (n : nat) : 0 ≤ Qnat n.
Proof. unfold Qnat. rewrite <-Z2Qc_inj_0, <-Z2Qc_inj_le. lia. Qed.

Lemma Qnat_pos (n : nat) : (0 < n)%nat → 0 < Qnat n.
Proof. intros H. unfold Qnat. rewrite <-Z2Qc_inj_0, <-Z2Qc_inj_lt. lia. Qed.

Lemma Qnat_S (n : nat) : Qnat (S n) = Qnat n + 1.
Proof. unfold Qnat. by rewrite Nat2Z.inj_succ, <-Z.add_1_r, Z2Qc_inj_add, Z2Qc_inj_1. Qed.

Lemma Qnat_le (n m : nat) : (n ≤ m)%nat → Qnat n ≤ Qnat m.
Proof. intros H. unfold Qnat. rewrite <-Z2Qc_inj_le. lia. Qed.

(** *** The engine's monad *)

Lemma bind_inr {A B} (m : Sim A) (k : A → Sim B) a log :
  m = (inr a, log) → bind m k = ((k a).1, (log ++ (k a).2)%list).
Proof. intros ->. unfold bind. by destruct (k a). Qed.

Lemma bind_inl {A B} (m : Sim A) (k : A → Sim B) e log :
  m = (inl e, log) → bind m k = (inl e, log).
Proof. by intros ->. Qed.

Lemma fst_bind {A B} (m : Sim A) (k : A → Sim B) :
  (bind m k).1 = match m.1 with inl e => inl e | inr a => (k a).1 end.
Proof. destruct m as [[e|a] log]; [done|]. cbn. by destruct (k a). Qed.

(** *** Validation *)

Lemma existsb_Exists {A} (f : A → bool) (P : A → Prop) (l : list A) :
  (∀ x, f x = true ↔ P x) → existsb f l = true ↔ Exists P l.
Proof.
  intros Hf. induction l as [|x l IH]; cbn.
  - split; [done|]. intros H. inversion H.
  - rewrite orb_true_iff, Exists_cons, Hf, IH. done.
Qed.

Lemma is_nil_true {A} (l : list A) : is_nil l = true ↔ l = [].
Proof. by destruct l. Qed.

Lemma neq_length (n m : nat) : negb (Nat.eqb n m) = true ↔ n ≠ m.
Proof. rewrite negb_true_iff. apply Nat.eqb_neq. Qed.

Lemma build_invalid spacings thicknesses diameter voltages :
  build spacings thicknesses diameter voltages = inl ValidationError
  ↔ invalid spacings thicknesses diameter voltages.
Proof.
  unfold build, invalid.
  match goal with |- context [if ?c then _ else _] => destruct c eqn:Hc end.
  - split; [intros _|done].
    repeat (apply orb_true_iff in Hc as [Hc|Hc]).
    + left. left. by apply neq_length.
    + left. right. left. by apply neq_length.
    + left. right. right. by apply neq_length.
    + right. left. revert Hc. apply existsb_Exists. intros s. apply Qcltb_lt.
    + right. right. left. revert Hc. apply existsb_Exists. intros t. apply Qcleb_le.
    + right. right. right. left. by apply Qcleb_le.
    + right. right. right. right. left. by apply is_nil_true.
    + right. right. right. right. right. left. by apply is_nil_true.
    + right. right. right. right. right. right. by apply is_nil_true.
  - split; [done|]. intros H. exfalso.
    repeat (apply orb_false_iff in Hc as [Hc ?]).
    assert (Hsp : ¬ Exists (λ s, s < 0) spacings).
    { rewrite <-(existsb_Exists (λ s, Qcltb s 0)) by (intros; apply Qcltb_lt). congruence. }
    assert (Hth : ¬ Exists (λ t, t ≤ 0) thicknesses).
    { rewrite <-(existsb_Exists (λ t, Qcleb t 0)) by (intros; apply Qcleb_le). congruence. }
    destruct H as [[H|[H|H]]|[H|[H|[H|[H|[H|H]]]]]];
      try (apply neq_length in H; congruence);
      try (apply is_nil_true in H; congruence);
      try done.
    apply Qcleb_le in H. congruence.
Qed.

Lemma build_valid spacings thicknesses diameter voltages stack vp :
  build spacings thicknesses diameter voltages = inr (stack, vp) →
  valid spacings thicknesses diameter voltages
  ∧ stack = mkStack (zip_with mkSegment spacings thicknesses) diameter
  ∧ vp = voltages.
Proof.
  intros Hb.
  assert (Hn : ¬ invalid spacings thicknesses diameter voltages).
  { rewrite <-build_invalid. congruence. }
  unfold build in Hb.
  match type of Hb with context [if ?c then _ else _] => destruct c end; [done|].
  injection Hb as <- <-. split; [|done].
  unfold invalid in Hn. split.
  - destruct (decide (length thicknesses = length spacings)); [done|].
    exfalso. apply Hn. left. left. congruence.
  - destruct (decide (length voltages = length spacings)); [done|].
    exfalso. apply Hn. left. right. left. congruence.
  - apply Forall_forall. intros s Hs. apply Qcnot_lt_le. intros Hlt.
    apply Hn. right. left. apply Exists_exists. eauto.
  - apply Forall_forall. intros t Ht. apply Qcnot_le_lt. intros Hle.
    apply Hn. right. right. left. apply Exists_exists. eauto.
  - apply Qcnot_le_lt. intros Hle. apply Hn. tauto.
  - intros ->. apply Hn. tauto.
Qed.

(** *** The axial extent *)

Lemma z_max_zip_nonneg spacings thicknesses d :
  Forall (λ s, 0 ≤ s) spacings → Forall (λ t, 0 < t) thicknesses →
  0 ≤ z_max (mkStack (zip_with mkSegment spacings thicknesses) d).
Proof.
  unfold z_max. cbn [segments]. intros Hs. revert thicknesses.
  induction Hs as [|s spacings Hs0 Hs IH]; intros thicknesses Ht; [cbn; qc_lra|].
  destruct Ht as [|t thicknesses Ht0 Ht]; [cbn; qc_lra|].
  cbn [zip_with foldr spacing thickness]. specialize (IH _ Ht). qc_lra.
Qed.

Lemma z_max_positive spacings thicknesses diameter voltages :
  valid spacings thicknesses diameter voltages →
  0 < z_max (mkStack (zip_with mkSegment spacings thicknesses) diameter).
Proof.
  intros [Hlt _ Hs Ht _ Hne].
  destruct Hs as [|s spacings Hs0 Hs]; [done|].
  destruct Ht as [|t thicknesses Ht0 Ht]; [done|].
  pose proof (z_max_zip_nonneg spacings thicknesses diameter Hs Ht) as Hrest.
  unfold z_max in *. cbn [segments zip_with foldr spacing thickness] in *. qc_lra.
Qed.

Section EngineFacts.

Variable shape : Qc → Qc → Qc → Qc * Qc * Qc.
Variable cfg : SolverConfig.
Variable stack : LensStack.
Variable vp : VoltageProfile.

Lemma potential_at_in_domain (z : Qc) :
  0 ≤ z → z ≤ z_max stack →
  potential_at shape stack vp z
  = (inr (field_walk shape (apertureDiameter stack) (hd 0 vp)
                     (combine (segments stack) vp) z),
     [PotentialAt z]).
Proof.
  intros H0 H1. unfold potential_at, record, bind.
  rewrite (proj2 (Qcleb_le _ _) H0), (proj2 (Qcleb_le _ _) H1). reflexivity.
Qed.

Lemma only_unstable_bind {A B} (m : Sim A) (k : A → Sim B) :
  only_unstable m → (∀ a, m.1 = inr a → only_unstable (k a)) →
  only_unstable (bind m k).
Proof.
  intros Hm Hk e. rewrite fst_bind. destruct m.1 as [e'|a] eqn:E.
  - intros [= <-]. by apply Hm.
  - by apply Hk.
Qed.

Lemma only_unstable_paraxial (ref z r p : Qc) :
  0 ≤ z → z ≤ z_max stack → only_unstable (paraxial shape stack vp ref z r p).
Proof.
  intros H0 H1 e. unfold paraxial.
  rewrite fst_bind, potential_at_in_domain by done. cbn [fst].
  case (Qceqb _ _); cbn; congruence.
Qed.

Lemma only_unstable_sanity_check (y : Qc * Qc) : only_unstable (sanity_check cfg y).
Proof. intros e. unfold sanity_check. by case (_ && _); cbn; intros [= <-]. Qed.

Lemma only_unstable_rk4_step (ref h z : Qc) (y : Qc * Qc) :
  0 ≤ z → 0 ≤ h → z + h ≤ z_max stack →
  only_unstable (rk4_step shape cfg stack vp ref h z y).
Proof.
  intros Hz Hh Hzh. unfold rk4_step. destruct y as [r p].
  assert (0 ≤ z + h * half) by qc_lra.
  assert (z + h * half ≤ z_max stack) by qc_lra.
  assert (0 ≤ z + h) by qc_lra.
  assert (z ≤ z_max stack) by qc_lra.
  repeat (apply only_unstable_bind; [by apply only_unstable_paraxial|intros ? _]).
  apply only_unstable_sanity_check.
Qed.

End EngineFacts.

(** *** The sample grid *)

Lemma grid_lookup h i n k z :
  grid h i n !! k = Some z → z = Qnat (i + k) * h ∧ (k < n)%nat.
Proof.
  unfold grid. rewrite list_lookup_fmap. intros H.
  apply fmap_Some in H as (j & Hj & ->). apply lookup_seq in Hj as [-> ?]. done.
Qed.

Lemma Qnat_mult_le (n m : nat) (h : Qc) :
  0 ≤ h → (n ≤ m)%nat → Qnat n * h ≤ Qnat m * h.
Proof. intros Hh Hnm. apply Qcmult_le_compat_r; [by apply Qnat_le|done]. Qed.

Lemma Qnat_mult_lt (n m : nat) (h : Qc) :
  0 < h → (n < m)%nat → Qnat n * h < Qnat m * h.
Proof.
  intros Hh Hnm. apply Qcmult_lt_compat_r; [done|].
  unfold Qnat. rewrite <-Z2Qc_inj_lt. lia.
Qed.

Lemma grid_sorted h i n : 0 < h → StronglySorted Qclt (grid h i n).
Proof.
  intros Hh. revert i. induction n as [|n IH]; intros i; [constructor|].
  unfold grid. cbn [seq fmap list_fmap]. constructor; [apply IH|].
  apply Forall_forall. intros z Hz. apply list_elem_of_lookup in Hz as [k Hk].
  apply grid_lookup in Hk as [-> _]. apply Qnat_mult_lt; [done|lia].
Qed.

Lemma grid_last h i n : last (grid h i (S n)) = Some (Qnat (i + n) * h).
Proof.
  unfold grid. rewrite fmap_last, seq_S, last_snoc. reflexivity.
Qed.

Lemma step_times_count (zmax : Qc) (n : nat) :
  (0 < n)%nat → Qnat n * (zmax / Qnat n) = zmax.
Proof.
  intros Hn. field. intros H0. apply Qnat_pos in Hn. rewrite H0 in Hn.
  by apply Qclt_not_eq in Hn.
Qed.

Lemma step_nonneg (zmax : Qc) (n : nat) : 0 ≤ zmax → 0 ≤ zmax / Qnat n.
Proof.
  intros Hz. destruct n as [|n].
  - replace (zmax / Qnat 0) with 0; [apply Qcle_refl|].
    unfold Qcdiv. replace (/ Qnat 0) with 0 by (by apply Qc_is_canon). ring.
  - apply Qcmult_nonneg_nonneg; [done|]. apply Qclt_le_weak, Qcinv_pos, Qnat_pos. lia.
Qed.

Lemma step_positive (zmax : Qc) (n : nat) : 0 < zmax → (0 < n)%nat → 0 < zmax / Qnat n.
Proof.
  intros Hz Hn. apply Qcmult_pos_pos; [done|]. by apply Qcinv_pos, Qnat_pos.
Qed.

Section Sampling.

Variable shape : Qc → Qc → Qc → Qc * Qc * Qc.
Variable cfg : SolverConfig.
Variable stack : LensStack.
Variable vp : VoltageProfile.
Variables ref h : Qc.
Hypothesis step_nonneg : 0 ≤ h.

Lemma grid_step_in_domain (i n : nat) :
  Qnat (i + S n) * h ≤ z_max stack →
  0 ≤ Qnat i * h ∧ Qnat i * h + h ≤ z_max stack.
Proof using step_nonneg.
  intros Hend. split.
  - apply Qcmult_nonneg_nonneg; [apply Qnat_nonneg|done].
  - assert (Qnat (S i) * h ≤ Qnat (i + S n) * h) by (apply Qnat_mult_le; [done|lia]).
    rewrite Qnat_S in *. qc_lra.
Qed.

Lemma only_unstable_sample (n i : nat) (y : Qc * Qc) :
  Qnat (i + n) * h ≤ z_max stack →
  only_unstable (sample shape cfg stack vp ref h n i y).
Proof using step_nonneg.
  revert i y. induction n as [|n IH]; intros i y Hend; [by intros e|].
  cbn [sample]. destruct (grid_step_in_domain i n Hend) as [H0 H1].
  apply only_unstable_bind; [by apply only_unstable_rk4_step|intros y' _].
  apply only_unstable_bind; [|by intros e].
  apply IH. by replace (S i + n)%nat with (i + S n)%nat by lia.
Qed.

Lemma only_unstable_integrate (n i : nat) (y : Qc * Qc) :
  Qnat (i + n) * h ≤ z_max stack →
  only_unstable (integrate shape cfg stack vp ref h n i y).
Proof using step_nonneg.
  revert i y. induction n as [|n IH]; intros i y Hend; [by intros e|].
  cbn [integrate]. destruct (grid_step_in_domain i n Hend) as [H0 H1].
  apply only_unstable_bind; [by apply only_unstable_rk4_step|intros y' _].
  apply IH. by replace (S i + n)%nat with (i + S n)%nat by lia.
Qed.

Lemma sample_grid (n i : nat) (y : Qc * Qc) (pts : list (Qc * Qc)) :
  (sample shape cfg stack vp ref h n i y).1 = inr pts →
  pts.*1 = grid h i (S n).
Proof.
  revert i y pts. induction n as [|n IH]; intros i y pts.
  - cbn. by intros [= <-].
  - cbn [sample]. rewrite fst_bind.
    destruct (rk4_step _ _ _ _ _ _ _ _).1 as [e|y']; [done|].
    rewrite fst_bind.
    destruct (sample _ _ _ _ _ _ n (S i) y').1 as [e|rest] eqn:Hrest; [done|].
    cbn. intros [= <-]. cbn. f_equal. by apply IH in Hrest.
Qed.

End Sampling.

Lemma raises_spec {A} (e : CoreError) (m : Sim A) : raises e m = true ↔ m.1 = inl e.
Proof. unfold raises. destruct m.1 as [[]|]; destruct e; split; congruence. Qed.

Lemma build_error spacings thicknesses diameter voltages e :
  build spacings thicknesses diameter voltages = inl e → e = ValidationError.
Proof. unfold build. case (_ || _); congruence. Qed.

Lemma Qnat_pred_count (N : Z) :
  (2 ≤ N)%Z → Qnat (Nat.pred (Z.to_nat N)) = Qc_of_Z (N - 1).
Proof. intros HN. unfold Qnat. f_equal. lia. Qed.

(** C4: for a request that [build] accepts, with numDatapoints >= 2 and
    positive energy, and whose integration does not trip the sanity
    bound, [trace] returns exactly numDatapoints samples; sample [i] is
    at z = i * z_max / (numDatapoints - 1), so the samples are evenly
    spaced; the z-values are strictly ascending, the first is 0 and the
    last is z_max. *)
Theorem trace_samples_the_axis
    (shape : Qc → Qc → Qc → Qc * Qc * Qc) (cfg : SolverConfig)
    (spacings thicknesses : list Qc) (diameter : Qc) (voltages : list Qc)
    (angle offset energy : Qc) (numDatapoints : Z)
    (stack : LensStack) (vp : VoltageProfile) :
  build spacings thicknesses diameter voltages = inr (stack, vp) →
  (2 ≤ numDatapoints)%Z →
  0 < energy →
  raises NumericalInstabilityError
    (trace shape cfg spacings thicknesses diameter voltages
           angle offset energy numDatapoints) = false →
  ∃ pts : list (Qc * Qc),
    (trace shape cfg spacings thicknesses diameter voltages
           angle offset energy numDatapoints).1 = inr pts
    ∧ Z.of_nat (length pts) = numDatapoints
    ∧ (∀ i z, pts.*1 !! i = Some z →
         z = Qc_of_Z (Z.of_nat i) * (z_max stack / Qc_of_Z (numDatapoints - 1)))
    ∧ StronglySorted Qclt pts.*1
    ∧ head pts.*1 = Some 0
    ∧ last pts.*1 = Some (z_max stack).
Proof.
  intros Hbuild HN Henergy Hstable.
  destruct (build_valid _ _ _ _ _ _ Hbuild) as (Hvalid & Hstack & _).
  assert (Hpos : 0 < z_max stack) by (subst stack; by eapply z_max_positive).
  set (n := Nat.pred (Z.to_nat numDatapoints)).
  assert (Hn : (0 < n)%nat) by (unfold n; lia).
  set (h := z_max stack / Qnat n).
  assert (Hh : 0 < h) by (by apply step_positive).
  assert (Hend : Qnat n * h = z_max stack) by (by apply step_times_count).
  set (f0 := field_walk shape (apertureDiameter stack) (hd 0 vp)
               (combine (segments stack) vp) 0).
  set (run := sample shape cfg stack vp (energy - V f0) h n 0 (offset, angle)).
  assert (Htrace : (trace shape cfg spacings thicknesses diameter voltages
                      angle offset energy numDatapoints).1 = run.1).
  { unfold trace, lift. rewrite Hbuild, fst_bind. cbn [fst snd].
    rewrite fst_bind. cbn [fst record].
    unfold integrate_trajectory.
    rewrite (proj2 (Z.ltb_ge _ _) HN), (proj2 (Qcleb_gt _ _) Henergy). cbn [orb].
    rewrite fst_bind.
    rewrite (potential_at_in_domain shape stack vp 0 (Qcle_refl 0) (Qclt_le_weak _ _ Hpos)).
    reflexivity. }
  assert (Hrun : ∃ pts, run.1 = inr pts).
  { assert (Hu : only_unstable run).
    { apply only_unstable_sample; [by apply Qclt_le_weak|].
      cbn [Nat.add]. rewrite Hend. apply Qcle_refl. }
    apply not_true_iff_false in Hstable. rewrite raises_spec, Htrace in Hstable.
    destruct run.1 as [e|pts] eqn:E; [|eauto].
    by rewrite (Hu e E) in Hstable. }
  destruct Hrun as [pts Hpts]. exists pts.
  pose proof (sample_grid _ _ _ _ _ _ _ _ _ _ Hpts) as Hgrid.
  assert (Hlen : length pts = S n).
  { rewrite <-(length_fmap fst), Hgrid. unfold grid.
    by rewrite length_fmap, length_seq. }
  split; [by rewrite Htrace|]. split; [rewrite Hlen; unfold n; lia|].
  rewrite Hgrid. split; [|split; [|split]].
  - intros i z Hz. apply grid_lookup in Hz as [-> _].
    unfold h, n. by rewrite (Qnat_pred_count _ HN).
  - by apply grid_sorted.
  - unfold grid. cbn. f_equal. apply Qcmult_0_l.
  - rewrite grid_last. cbn. by rewrite Hend.
Qed.

Lemma trace_samples_the_axis_witness :
  ∃ pts : list (Qc * Qc),
    (trace smooth_ramp sample_config [cm 1; cm 2] [cm 1; cm 1] (cm 2)
           two_electrode_voltages (cm 1) (Q2Qc (1 # 1000)) (Q2Qc 10) 3).1 = inr pts
    ∧ Z.of_nat (length pts) = 3%Z
    ∧ (∀ i z, pts.*1 !! i = Some z →
         z = Qc_of_Z (Z.of_nat i) * (z_max two_electrode_stack / Qc_of_Z (3 - 1)))
    ∧ StronglySorted Qclt pts.*1
    ∧ head pts.*1 = Some 0
    ∧ last pts.*1 = Some (z_max two_electrode_stack).
Proof.
  apply (trace_samples_the_axis smooth_ramp sample_config [cm 1; cm 2] [cm 1; cm 1]
           (cm 2) two_electrode_voltages (cm 1) (Q2Qc (1 # 1000)) (Q2Qc 10) 3
           two_electrode_stack two_electrode_voltages).
  - reflexivity.
  - lia.
  - reflexivity.
  - vm_compute. reflexivity.
Defined.

(** C5: whenever numDatapoints < 2 or energy <= 0, [trace] fails with
    ValidationError, whatever the rest of the request; it returns no
    samples and has not evaluated the potential anywhere. *)
Theorem trace_rejects_bad_request
    (shape : Qc → Qc → Qc → Qc * Qc * Qc) (cfg : SolverConfig)
    (spacings thicknesses : list Qc) (diameter : Qc) (voltages : list Qc)
    (angle offset energy : Qc) (numDatapoints : Z) :
  (numDatapoints < 2)%Z ∨ energy ≤ 0 →
  (trace shape cfg spacings thicknesses diameter voltages
         angle offset energy numDatapoints).1 = inl ValidationError
  ∧ ∀ z, PotentialAt z ∉ (trace shape cfg spacings thicknesses diameter voltages
                                angle offset energy numDatapoints).2.
Proof.
  intros Hbad. unfold trace, lift.
  destruct (build spacings thicknesses diameter voltages) as [e|sv] eqn:Hbuild.
  - apply build_error in Hbuild as ->. cbn. split; [done|]. intros z Hz. inversion Hz.
  - assert (Hcond : (numDatapoints <? 2)%Z || Qcleb energy 0 = true).
    { apply orb_true_iff. destruct Hbad as [H|H]; [left|right].
      - by apply Z.ltb_lt.
      - by apply Qcleb_le. }
    unfold integrate_trajectory. rewrite Hcond. cbn. split; [done|].
    intros z Hz. apply list_elem_of_singleton in Hz. discriminate.
Qed.

Lemma trace_rejects_bad_request_witness :
  (trace smooth_ramp sample_config [cm 1] [cm 1] (cm 2) [Q2Qc 100]
         0 (Q2Qc (1 # 1000)) (Q2Qc 10) 1).1 = inl ValidationError
  ∧ (trace smooth_ramp sample_config [cm 1] [cm 1] (cm 2) [Q2Qc 100]
           0 (Q2Qc (1 # 1000)) 0 50).1 = inl ValidationError.
Proof.
  split.
  - refine (proj1 (trace_rejects_bad_request smooth_ramp sample_config [cm 1] [cm 1]
                     (cm 2) [Q2Qc 100] 0 (Q2Qc (1 # 1000)) (Q2Qc 10) 1 _)).
    left. lia.
  - refine (proj1 (trace_rejects_bad_request smooth_ramp sample_config [cm 1] [cm 1]
                     (cm 2) [Q2Qc 100] 0 (Q2Qc (1 # 1000)) 0 50 _)).
    right. apply Qcle_refl.
Defined.

(** C6: [build] fails exactly when the three sequences do not have the
    same length, a spacing is negative, a thickness or the diameter is
    not positive, or a sequence is empty, and its only error is
    ValidationError; when spacings and voltages differ in length, both
    operations of the facade fail with ValidationError with no field
    built and no potential evaluated. *)
Theorem build_rejects_exactly_malformed_input
    (spacings thicknesses : list Qc) (diameter : Qc) (voltages : list Qc) :
  ((∃ e, build spacings thicknesses diameter voltages = inl e)
   ↔ (length spacings ≠ length thicknesses ∨ length spacings ≠ length voltages
      ∨ length thicknesses ≠ length voltages)
     ∨ Exists (λ s, s < 0) spacings
     ∨ Exists (λ t, t ≤ 0) thicknesses
     ∨ diameter ≤ 0
     ∨ (spacings = [] ∨ thicknesses = [] ∨ voltages = []))
  ∧ (∀ e, build spacings thicknesses diameter voltages = inl e → e = ValidationError)
  ∧ (length spacings ≠ length voltages →
     ∀ shape cfg angle offset energy numDatapoints,
       focal_length shape cfg spacings thicknesses diameter voltages
         = (inl ValidationError, [])
       ∧ trace shape cfg spacings thicknesses diameter voltages
               angle offset energy numDatapoints
         = (inl ValidationError, [])).
Proof.
  split; [|split].
  - rewrite <-(build_invalid spacings thicknesses diameter voltages : _ ↔ invalid _ _ _ _).
    split; [|eauto]. intros [e He]. by rewrite (build_error _ _ _ _ _ He) in He.
  - apply build_error.
  - intros Hlen shape cfg angle offset energy numDatapoints.
    assert (Hb : build spacings thicknesses diameter voltages = inl ValidationError).
    { apply build_invalid. left. tauto. }
    unfold focal_length, trace, lift. by rewrite Hb.
Qed.

Lemma build_rejects_exactly_malformed_input_witness :
  length [cm 1; cm 2] ≠ length [Q2Qc 100]
  ∧ focal_length smooth_ramp sample_config [cm 1; cm 2] [cm 1; cm 1] (cm 2) [Q2Qc 100]
    = (inl ValidationError, [])
  ∧ ∃ e, build [cm 1] [cm 1] 0 [Q2Qc 100] = inl e.
Proof.
  assert (Hlen : length [cm 1; cm 2] ≠ length [Q2Qc 100]) by (cbn; lia).
  split; [exact Hlen|]. split.
  - exact (proj1 (proj2 (proj2 (build_rejects_exactly_malformed_input
             [cm 1; cm 2] [cm 1; cm 1] (cm 2) [Q2Qc 100])) Hlen
             smooth_ramp sample_config 0 0 0 0%Z)).
  - apply (proj1 (build_rejects_exactly_malformed_input [cm 1] [cm 1] 0 [Q2Qc 100])).
    right. right. right. left. apply Qcle_refl.
Defined.

(** *** A uniform potential *)

Section Uniform.

Variable shape : Qc → Qc → Qc → Qc * Qc * Qc.
Variable cfg : SolverConfig.
Variable stack : LensStack.
Variable vp : VoltageProfile.
Variable v : Qc.
Hypothesis uniform : Forall (λ x, x = v) vp.
Hypothesis nonempty : vp ≠ [].







Hypothesis bound_admits_reference_ray : 1 ≤ sanity_bound cfg.




End Uniform.






(** C8: the focal-length solver reports Undefined whenever the exit
    slope r'(z_max) is within epsilon of 0, computes
    -r(z_max) / r'(z_max) plus the working distance whenever the slope
    exceeds epsilon in absolute value, and returns a number on no other
    path: a numeric result always comes from an exit slope beyond
    epsilon, and a failed integration yields its error, not a number. *)
Theorem focal_length_division_is_guarded
    (shape : Qc → Qc → Qc → Qc * Qc * Qc) (cfg : SolverConfig)
    (stack : LensStack) (vp : VoltageProfile) :
  (∀ r p, (exit_state shape cfg stack vp).1 = inr (r, p) →
     Qcabs p ≤ epsilon cfg →
     (solve_focal_length shape cfg stack vp).1 = inr Undefined)
  ∧ (∀ r p, (exit_state shape cfg stack vp).1 = inr (r, p) →
     epsilon cfg < Qcabs p →
     (solve_focal_length shape cfg stack vp).1
       = inr (Finite (- r / p + working_distance stack)))
  ∧ (∀ f, (solve_focal_length shape cfg stack vp).1 = inr (Finite f) →
     ∃ r p, (exit_state shape cfg stack vp).1 = inr (r, p)
            ∧ epsilon cfg < Qcabs p
            ∧ f = - r / p + working_distance stack)
  ∧ (∀ e, (exit_state shape cfg stack vp).1 = inl e →
     (solve_focal_length shape cfg stack vp).1 = inl e).
Proof.
  unfold solve_focal_length. rewrite fst_bind.
  destruct (exit_state shape cfg stack vp).1 as [e|[r p]];
    cbn [fst snd ret]; unfold focal_of_exit.
  - split; [|split; [|split]]; intros; congruence.
  - split; [|split; [|split]].
    + intros ? ? [= <- <-] Hle. by rewrite (proj2 (Qcleb_le _ _) Hle).
    + intros ? ? [= <- <-] Hgt. by rewrite (proj2 (Qcleb_gt _ _) Hgt).
    + intros f. destruct (Qcleb (Qcabs p) (epsilon cfg)) eqn:E; [done|].
      intros [= <-]. exists r, p. split; [done|]. split; [by apply Qcleb_gt|done].
    + done.
Qed.

Lemma focal_length_division_is_guarded_witness :
  ∃ f r p,
    (solve_focal_length smooth_ramp sample_config
       two_electrode_stack two_electrode_voltages).1 = inr (Finite f)
    ∧ (exit_state smooth_ramp sample_config
         two_electrode_stack two_electrode_voltages).1 = inr (r, p)
    ∧ epsilon sample_config < Qcabs p
    ∧ f = - r / p + working_distance two_electrode_stack.
Proof.
  assert (Hf : { f | (solve_focal_length smooth_ramp sample_config
                        two_electrode_stack two_electrode_voltages).1
                     = inr (Finite f) }).
  { eexists. vm_compute. reflexivity. }
  destruct Hf as [f Hf]. exists f.
  destruct (proj1 (proj2 (proj2 (focal_length_division_is_guarded smooth_ramp
              sample_config two_electrode_stack two_electrode_voltages))) f Hf)
    as (r & p & Hexit & Hgt & Heq).
  exists r, p. auto.
Defined.

End CoreFacts.

(* ===================================================================== *)
(** ** Further properties of the component *)
(* ===================================================================== *)

Module ComponentFacts.
Import Js App AppFacts.

(** *** Typing *)

Lemma field_after_typing (ins : gmap string string) (name value k : string) :
  field (<[name := value]> ins) k
  = if decide (k = name) then JStr value else field ins k.
Proof.
  unfold field. destruct (decide (k = name)) as [->|Hne].
  - by rewrite lookup_insert_eq.
  - by rewrite lookup_insert_ne.
Qed.

(** X1: a change event completes normally with no effect on the outside;
    in the view the input of that name shows the typed value, every
    other input shows what it showed, and the focal-length paragraph and
    the plot are as before. *)
Theorem typing_shows_in_its_field (name value : string) (st : AppState) :
  outcome (handleChange name value st) = inr tt ∧
  effects (handleChange name value st) = [] ∧
  field_values (render (state (handleChange name value st)))
    = (λ kv : string * JsVal,
         if decide (kv.1 = name) then (kv.1, JStr value) else kv)
      <$> field_values (render st) ∧
  focal_slot (render (state (handleChange name value st))) = focal_slot (render st) ∧
  plot_slot (render (state (handleChange name value st))) = plot_slot (render st).
Proof.
  split; [done|]. split; [done|]. split; [|done].
  unfold render, handleChange, setInputs. cbn [state inputs field_values].
  rewrite <-list_fmap_compose. apply list_fmap_ext. intros _ k _. cbn.
  rewrite field_after_typing. by destruct (decide (k = name)).
Qed.

(** X2: typing twice into the same input keeps the last value only,
    and typing into two different inputs gives the same state in either
    order. *)
Theorem typing_overwrites_and_commutes
    (n1 n2 v1 v2 : string) (st : AppState) :
  state (handleChange n1 v2 (state (handleChange n1 v1 st)))
    = state (handleChange n1 v2 st) ∧
  (n1 ≠ n2 →
   state (handleChange n1 v1 (state (handleChange n2 v2 st)))
     = state (handleChange n2 v2 (state (handleChange n1 v1 st)))).
Proof.
  unfold handleChange, setInputs. cbn [state inputs focalLength plotImage].
  split.
  - by rewrite insert_insert_eq.
  - intros Hne. f_equal. by apply insert_insert_ne.
Qed.

Lemma typing_overwrites_and_commutes_witness :
  "spacings" ≠ "voltages" ∧
  state (handleChange "spacings" "0.01" (state (handleChange "voltages" "100" initial)))
    = state (handleChange "voltages" "100" (state (handleChange "spacings" "0.01" initial))).
Proof.
  assert (H : "spacings" ≠ "voltages") by discriminate.
  split; [exact H|].
  exact (proj2 (typing_overwrites_and_commutes "spacings" "voltages" "0.01" "100" initial) H).
Defined.

(** *** Conversion to a string *)

(** ToString throws exactly on the values that are not printable. *)
Lemma to_string_printable (number_to_string : float → string) (v : JsVal) :
  match to_string number_to_string v with
  | inr _ => printable v = true
  | inl _ => printable v = false
  end.
Proof.
  revert v. fix IH 1. intros v.
  destruct v as [| |b|x|s|items|props]; try reflexivity.
  - by destruct b.
  - cbn [to_string printable].
    set (join_items := fix join_items (items : list JsVal) : Thrown + list string :=
           match items with
           | [] => inr []
           | item :: rest =>
               match
                 match item with
                 | JUndefined | JNull => inr ""
                 | _ => to_string number_to_string item
                 end
               with
               | inl e => inl e
               | inr s =>
                   match join_items rest with
                   | inl e => inl e
                   | inr strs => inr (s :: strs)
                   end
               end
           end).
    cut (match join_items items with
         | inr _ => forallb printable items = true
         | inl _ => forallb printable items = false
         end); [by destruct (join_items items)|].
    revert items. fix IHl 1. intros [|item rest]; [reflexivity|].
    cbn [forallb]. pose proof (IH item) as Hitem. pose proof (IHl rest) as Hrest.
    change (join_items (item :: rest)) with
      (match
         match item with
         | JUndefined | JNull => inr ""
         | _ => to_string number_to_string item
         end
       with
       | inl e => inl e
       | inr s =>
           match join_items rest with
           | inl e => inl e
           | inr strs => inr (s :: strs)
           end
       end).
    destruct item; cbn [printable andb] in *;
      try (destruct (join_items rest); exact Hrest).
    + destruct (to_string number_to_string (JBool b)); [discriminate Hitem|].
      destruct (join_items rest); exact Hrest.
    + destruct (to_string number_to_string (JArr items)); rewrite Hitem; cbn [andb];
        [reflexivity|]. destruct (join_items rest); exact Hrest.
    + destruct (to_string number_to_string (JObj props)); rewrite Hitem; cbn [andb];
        [reflexivity|]. destruct (join_items rest); exact Hrest.
  - cbn. by destruct (props !! "toString").
Qed.

Lemma to_string_succeeds (number_to_string : float → string) (v : JsVal) :
  (∃ shown, to_string number_to_string v = inr shown) ↔ printable v = true.
Proof.
  pose proof (to_string_printable number_to_string v) as H.
  destruct (to_string number_to_string v) as [e|shown].
  - rewrite H. split; [by intros [? ?]|done].
  - split; [done|eauto].
Qed.

(** *** One submission *)

Lemma get_prop_throws (data : JsVal) (k : string) :
  (∃ e, get_prop data k = inl e) ↔ data = JUndefined ∨ data = JNull.
Proof.
  split.
  - intros [e He]. destruct data; try discriminate; auto.
  - intros [->| ->]; cbn; eauto.
Qed.

Lemma readable_spec (key : string) (answer : Thrown + JsVal) :
  is_Some (readable key answer)
  ↔ ∃ data, answer = inr data ∧ data ≠ JUndefined ∧ data ≠ JNull.
Proof.
  unfold readable. split.
  - destruct answer as [e|data]; [by intros [? ?]|].
    destruct (get_prop data key) as [e|v] eqn:E; [by intros [? ?]|].
    intros _. exists data. split; [done|].
    split; intros ->; discriminate.
  - intros (data & -> & H1 & H2).
    destruct (get_prop data key) as [e|v] eqn:E; [|eauto].
    exfalso. assert (data = JUndefined ∨ data = JNull) as [?|?]; [|done..].
    apply (get_prop_throws data key). eauto.
Qed.

(** X3: whatever the backend answers, each submit handler completes
    normally; it calls preventDefault first, then posts exactly one
    request, to its own URL with its own body, and after that writes at
    most one error to the console. *)
Theorem handlers_complete_normally
    (number_to_string : float → string) (post : string → JsVal → Thrown + JsVal)
    (ins : gmap string string) (st : AppState) :
  (outcome (handleFocalLengthCalculation number_to_string post ins st) = inr tt ∧
   ∃ tail,
     effects (handleFocalLengthCalculation number_to_string post ins st)
       = PreventDefault :: Post focal_length_url (focal_length_request ins) :: tail ∧
     (tail = [] ∨ ∃ e, tail = [ConsoleError "Error fetching focal length:" e])) ∧
  (outcome (handleRayPlotting post ins st) = inr tt ∧
   ∃ tail,
     effects (handleRayPlotting post ins st)
       = PreventDefault :: Post plot_ray_url (plot_ray_request ins) :: tail ∧
     (tail = [] ∨ ∃ e, tail = [ConsoleError "Error plotting ray:" e])).
Proof.
  rewrite focal_run, plot_run. cbv zeta. split.
  - destruct (post focal_length_url _) as [e|data]; [cbn; eauto 6|].
    destruct (get_prop data _) as [?|v]; [cbn; eauto 6|].
    destruct (to_string _ v); cbn; eauto 6.
  - destruct (post plot_ray_url _) as [e|data]; [cbn; eauto 6|].
    destruct (get_prop data _); cbn; eauto 6.
Qed.

(** X4: the focal-length handler writes nothing to the console exactly
    when its request was fulfilled, the focal_length of the data could
    be read (the data is neither undefined nor null) and is printable
    (no object with an own toString property has to be converted); the
    ray-plot handler writes nothing exactly when its request was
    fulfilled with data that is neither undefined nor null.  In every
    other case the error is caught and logged. *)
Theorem error_logged_iff_unreadable
    (number_to_string : float → string) (post : string → JsVal → Thrown + JsVal)
    (st : AppState) :
  (logged (click_focal_length number_to_string post st) = []
   ↔ ∃ data v, post focal_length_url (focal_length_request (inputs st)) = inr data
               ∧ get_prop data "focal_length" = inr v
               ∧ printable v = true) ∧
  (logged (click_plot_ray post st) = []
   ↔ ∃ data, post plot_ray_url (plot_ray_request (inputs st)) = inr data
             ∧ data ≠ JUndefined ∧ data ≠ JNull).
Proof.
  unfold click_focal_length, click_plot_ray, logged.
  rewrite focal_run, plot_run. cbv zeta. split.
  - destruct (post focal_length_url _) as [e|data]; cbn.
    + split; [done|]. by intros (? & ? & ? & _).
    + destruct (get_prop data "focal_length") as [e|v] eqn:E; cbn.
      * split; [done|]. intros (? & ? & [= <-] & ? & _). congruence.
      * pose proof (to_string_printable number_to_string v) as Hv.
        destruct (to_string number_to_string v); cbn.
        -- split; [done|]. intros (? & ? & [= <-] & ? & Hp). congruence.
        -- split; [eauto|done].
  - rewrite <-(readable_spec "image"). unfold readable.
    destruct (post plot_ray_url _) as [e|data]; cbn.
    + split; [done|by intros [? ?]].
    + destruct (get_prop data _); cbn; split; first [done | by intros [? ?] | eauto].
Qed.

Lemma error_logged_iff_unreadable_witness :
  logged (click_plot_ray image_backend typed_form) = [] ∧
  logged (click_plot_ray (λ _ _, inr JNull) typed_form) ≠ [] ∧
  logged (click_focal_length no_number_shown unprintable_backend typed_form) ≠ [].
Proof.
  destruct (error_logged_iff_unreadable no_number_shown image_backend typed_form)
    as [_ [_ Hok]].
  destruct (error_logged_iff_unreadable no_number_shown (λ _ _, inr JNull) typed_form)
    as [_ [Hnull _]].
  destruct (error_logged_iff_unreadable no_number_shown unprintable_backend typed_form)
    as [[Hbad _] _].
  split; [|split].
  - apply Hok. eexists. split; [reflexivity|]. split; discriminate.
  - intros Hnone. destruct (Hnull Hnone) as (data & [= <-] & _ & Hnot). by apply Hnot.
  - intros Hnone. destruct (Hbad Hnone) as (data & v & [= <-] & [= <-] & Hp).
    discriminate Hp.
Defined.

Lemma template_truthy (s : string) :
  truthy (JStr ("System Focal Length: " ++ s)) = true.
Proof. reflexivity. Qed.

(** X5: a focal-length request fulfilled with data other than
    undefined and null reads the data's focal_length.  When that value
    converts to a string, the text becomes "System Focal Length: <that
    string> meters", the paragraph is then shown, and the inputs and the
    plot are untouched; it converts whenever it is printable.  When the
    conversion throws, the error is caught and logged and the state is
    left as it was. *)
Theorem fulfilled_focal_length_is_displayed
    (number_to_string : float → string) (post : string → JsVal → Thrown + JsVal)
    (st : AppState) (data : JsVal) :
  post focal_length_url (focal_length_request (inputs st)) = inr data →
  data ≠ JUndefined → data ≠ JNull →
  ∃ v, get_prop data "focal_length" = inr v ∧
    (printable v = true → ∃ shown, to_string number_to_string v = inr shown) ∧
    (∀ shown, to_string number_to_string v = inr shown →
       state (click_focal_length number_to_string post st)
         = mkState (inputs st) ("System Focal Length: " ++ shown ++ " meters")
                   (plotImage st) ∧
       focal_slot (render (state (click_focal_length number_to_string post st)))
         = Paragraph ("System Focal Length: " ++ shown ++ " meters") ∧
       plot_slot (render (state (click_focal_length number_to_string post st)))
         = plot_slot (render st)) ∧
    (∀ e, to_string number_to_string v = inl e →
       click_focal_length number_to_string post st
       = mkRun (inr tt) st
           [PreventDefault;
            Post focal_length_url (focal_length_request (inputs st));
            ConsoleError "Error fetching focal length:" e]).
Proof.
  intros Hpost H1 H2. unfold click_focal_length. rewrite focal_run. cbv zeta.
  rewrite Hpost. destruct (get_prop data "focal_length") as [e|v] eqn:E.
  - exfalso. assert (data = JUndefined ∨ data = JNull) as [?|?]; [|done..].
    apply (get_prop_throws data "focal_length"). eauto.
  - exists v. split; [done|]. split; [apply to_string_succeeds|]. split.
    + intros shown ->. split; [done|]. split; [|done].
      unfold render, js_and. cbn [state focalLength focal_slot].
      by rewrite template_truthy.
    + by intros e ->.
Qed.

Lemma fulfilled_focal_length_is_displayed_witness :
  focal_slot (render (state (click_focal_length no_number_shown
    (λ _ _, inr (JObj {[ "focal_length" := JStr "0.25" ]})) typed_form)))
  = Paragraph "System Focal Length: 0.25 meters" ∧
  state (click_focal_length no_number_shown unprintable_backend shown_before)
  = shown_before.
Proof.
  split.
  - destruct (fulfilled_focal_length_is_displayed no_number_shown
                (λ _ _, inr (JObj {[ "focal_length" := JStr "0.25" ]})) typed_form
                (JObj {[ "focal_length" := JStr "0.25" ]}))
      as (v & Hv & _ & Hshow & _); [reflexivity|discriminate|discriminate|].
    injection Hv as <-. exact (proj1 (proj2 (Hshow "0.25" eq_refl))).
  - destruct (fulfilled_focal_length_is_displayed no_number_shown
                unprintable_backend shown_before
                (JObj {[ "focal_length" := JObj {[ "toString" := JStr "x" ]} ]}))
      as (v & Hv & _ & _ & Hthrow); [reflexivity|discriminate|discriminate|].
    injection Hv as <-. by rewrite (Hthrow _ eq_refl).
Defined.

Lemma get_prop_missing (data : JsVal) (k : string) :
  data ≠ JUndefined → data ≠ JNull →
  (∀ props, data = JObj props → props !! k = None) →
  get_prop data k = inr JUndefined.
Proof.
  intros H1 H2 Hk. destruct data; try done. cbn. by rewrite (Hk _ eq_refl).
Qed.

(** X6: when the fulfilled response lacks the expected key (an object
    without it, or data that is no object), the focal-length text reads
    "System Focal Length: undefined meters", and the plot image becomes
    undefined so that no plot is shown, whatever was shown before; no
    error is logged in either case. *)
Theorem response_without_the_key
    (number_to_string : float → string) (post : string → JsVal → Thrown + JsVal)
    (st : AppState) (data : JsVal) :
  data ≠ JUndefined → data ≠ JNull →
  (post focal_length_url (focal_length_request (inputs st)) = inr data →
   (∀ props, data = JObj props → props !! "focal_length" = None) →
   focalLength (state (click_focal_length number_to_string post st))
     = "System Focal Length: undefined meters" ∧
   logged (click_focal_length number_to_string post st) = []) ∧
  (post plot_ray_url (plot_ray_request (inputs st)) = inr data →
   (∀ props, data = JObj props → props !! "image" = None) →
   plotImage (state (click_plot_ray post st)) = JUndefined ∧
   plot_slot (render (state (click_plot_ray post st))) = Value JUndefined ∧
   logged (click_plot_ray post st) = []).
Proof.
  intros H1 H2. unfold click_focal_length, click_plot_ray, logged.
  rewrite focal_run, plot_run. cbv zeta. split.
  - intros -> Hk. by rewrite (get_prop_missing _ _ H1 H2 Hk).
  - intros -> Hk. by rewrite (get_prop_missing _ _ H1 H2 Hk).
Qed.

Lemma response_without_the_key_witness :
  focalLength (state (click_focal_length no_number_shown points_backend shown_before))
    = "System Focal Length: undefined meters" ∧
  plot_slot (render (state (click_plot_ray points_backend shown_before)))
    = Value JUndefined.
Proof.
  pose (data := JObj {[ "points" :=
          JArr [JArr [JNum 0; JNum 0.25]; JArr [JNum 0.5; JNum 0.125]] ]}).
  assert (H1 : data ≠ JUndefined) by discriminate.
  assert (H2 : data ≠ JNull) by discriminate.
  destruct (response_without_the_key no_number_shown points_backend shown_before
              data H1 H2) as [Hf Hp].
  split.
  - apply Hf; [reflexivity|]. intros props [= <-]. vm_compute. reflexivity.
  - apply Hp; [reflexivity|]. intros props [= <-]. vm_compute. reflexivity.
Defined.

(** *** Requests *)

Lemma request_of_keys (names : list string) (ins : gmap string string) :
  own_keys (request_of names ins) = list_to_set names.
Proof.
  unfold request_of, own_keys. rewrite dom_list_to_map_L.
  f_equal. rewrite <-list_fmap_compose. induction names; [done|]. cbn. by f_equal.
Qed.

Lemma focal_fields_are_plot_fields (k : string) :
  k ∈ focal_length_fields → k ∈ plot_ray_fields.
Proof.
  rewrite !list_elem_of_In. unfold focal_length_fields, plot_ray_fields. cbn. tauto.
Qed.

Lemma posted_by_click
    (number_to_string : float → string) (post : string → JsVal → Thrown + JsVal)
    (st : AppState) :
  posted (click_focal_length number_to_string post st)
    = [(focal_length_url, focal_length_request (inputs st))] ∧
  posted (click_plot_ray post st)
    = [(plot_ray_url, plot_ray_request (inputs st))].
Proof.
  unfold click_focal_length, click_plot_ray, posted.
  rewrite focal_run, plot_run. cbv zeta. split.
  - destruct (post focal_length_url _) as [e|data]; [reflexivity|].
    destruct (get_prop data _) as [?|v]; [reflexivity|].
    destruct (to_string _ v); reflexivity.
  - destruct (post plot_ray_url _) as [e|data]; [reflexivity|].
    destruct (get_prop data _); reflexivity.
Qed.

(** X11: the focal-length body has exactly the keys spacings,
    thicknesses, diameter and voltages, the ray-plot body exactly those
    and angle, offset, energy and numDatapoints, whatever the inputs;
    on the four shared keys the two bodies agree. *)
Theorem request_bodies_have_fixed_keys (ins : gmap string string) :
  own_keys (focal_length_request ins)
    = {[ "spacings"; "thicknesses"; "diameter"; "voltages" ]} ∧
  own_keys (plot_ray_request ins)
    = {[ "spacings"; "thicknesses"; "diameter"; "voltages";
         "angle"; "offset"; "energy"; "numDatapoints" ]} ∧
  (∀ k, k ∈ focal_length_fields →
     get_prop (plot_ray_request ins) k = get_prop (focal_length_request ins) k).
Proof.
  unfold focal_length_request, plot_ray_request. rewrite !request_of_keys.
  split; [|split].
  - unfold focal_length_fields. cbn. set_solver.
  - unfold plot_ray_fields. cbn. set_solver.
  - intros k Hk. rewrite !request_of_lookup; [done|done|].
    by apply focal_fields_are_plot_fields.
Qed.

Lemma request_bodies_have_fixed_keys_witness :
  "voltages" ∈ focal_length_fields ∧
  get_prop (plot_ray_request (inputs typed_form)) "voltages"
    = get_prop (focal_length_request (inputs typed_form)) "voltages".
Proof.
  assert (Hin : "voltages" ∈ focal_length_fields).
  { apply list_elem_of_In. vm_compute. tauto. }
  split; [exact Hin|].
  exact (proj2 (proj2 (request_bodies_have_fixed_keys (inputs typed_form))) _ Hin).
Defined.

Lemma request_of_after_typing (names : list string) (ins : gmap string string)
    (name value k : string) :
  get_prop (request_of names (<[name := value]> ins)) k
  = if decide (k = name ∧ k ∈ names) then inr (JStr value)
    else get_prop (request_of names ins) k.
Proof.
  destruct (decide (k ∈ names)) as [Hin|Hout].
  - rewrite !request_of_lookup by done. rewrite field_after_typing.
    destruct (decide (k = name)) as [->|Hne].
    + by rewrite decide_True.
    + rewrite decide_False; [done|]. by intros [? _].
  - rewrite !request_of_other by done. rewrite decide_False; [done|]. by intros [_ ?].
Qed.

(** X10: after typing a value into an input, the next ray-plot request
    carries that value under the input's name and every other field as
    before; the next focal-length request carries it when the input is
    one of its four fields and is otherwise the request it would have
    been without the typing. *)
Theorem typed_value_reaches_the_request
    (number_to_string : float → string) (post : string → JsVal → Thrown + JsVal)
    (name value : string) (st : AppState) :
  let st' := state (handleChange name value st) in
  (∃ body, posted (click_plot_ray post st') = [(plot_ray_url, body)] ∧
     (name ∈ plot_ray_fields → get_prop body name = inr (JStr value)) ∧
     (∀ k, k ≠ name → get_prop body k = get_prop (plot_ray_request (inputs st)) k)) ∧
  (∃ body, posted (click_focal_length number_to_string post st')
             = [(focal_length_url, body)] ∧
     (name ∈ focal_length_fields → get_prop body name = inr (JStr value)) ∧
     (name ∉ focal_length_fields → body = focal_length_request (inputs st)) ∧
     (∀ k, k ≠ name →
        get_prop body k = get_prop (focal_length_request (inputs st)) k)).
Proof.
  cbv zeta.
  destruct (posted_by_click number_to_string post
              (state (handleChange name value st))) as [Hf Hp].
  split.
  - eexists. split; [exact Hp|]. unfold plot_ray_request. cbn [handleChange setInputs state inputs].
    split.
    + intros Hin. rewrite request_of_after_typing. by rewrite decide_True.
    + intros k Hk. rewrite request_of_after_typing. rewrite decide_False; [done|].
      by intros [? _].
  - eexists. split; [exact Hf|]. unfold focal_length_request.
    cbn [handleChange setInputs state inputs]. split; [|split].
    + intros Hin. rewrite request_of_after_typing. by rewrite decide_True.
    + intros Hout. unfold request_of. do 2 f_equal.
      apply list_fmap_ext. intros i k Hk. f_equal.
      rewrite field_after_typing. rewrite decide_False; [done|].
      intros ->. apply Hout. by eapply list_elem_of_lookup_2.
    + intros k Hk. rewrite request_of_after_typing. rewrite decide_False; [done|].
      by intros [? _].
Qed.

Lemma typed_value_reaches_the_request_witness :
  "energy" ∈ plot_ray_fields ∧ ("energy" ∉ focal_length_fields) ∧
  ∃ body,
    posted (click_plot_ray image_backend
              (state (handleChange "energy" "2000" typed_form)))
      = [(plot_ray_url, body)] ∧
    get_prop body "energy" = inr (JStr "2000").
Proof.
  assert (Hin : "energy" ∈ plot_ray_fields).
  { apply list_elem_of_In. vm_compute. tauto. }
  assert (Hout : "energy" ∉ focal_length_fields).
  { rewrite list_elem_of_In. vm_compute. intuition discriminate. }
  split; [exact Hin|]. split; [exact Hout|].
  destruct (typed_value_reaches_the_request no_number_shown image_backend
              "energy" "2000" typed_form) as [(body & Hposted & Hbody & _) _].
  exists body. split; [exact Hposted|exact (Hbody Hin)].
Defined.

(** *** Sessions *)

(** Case analysis on what an answer held and on its conversion. *)
Ltac cases_answer :=
  repeat match goal with
         | |- context [match readable ?k ?a with _ => _ end] =>
             destruct (readable k a)
         | |- context [match to_string ?n ?v with _ => _ end] =>
             destruct (to_string n v)
         end.

Section Sessions.

Variable number_to_string : float → string.

Lemma dispatch_state (a : Action) (st : AppState) :
  state (dispatch number_to_string a st) =
  match a with
  | Typed name value =>
      mkState (<[name := value]> (inputs st)) (focalLength st) (plotImage st)
  | FocalLengthClicked answer =>
      match readable "focal_length" answer with
      | Some v =>
          match to_string number_to_string v with
          | inr shown =>
              mkState (inputs st) ("System Focal Length: " ++ shown ++ " meters")
                      (plotImage st)
          | inl _ => st
          end
      | None => st
      end
  | RayPlotClicked answer =>
      match readable "image" answer with
      | Some v => mkState (inputs st) (focalLength st) v
      | None => st
      end
  end.
Proof.
  destruct a as [name value|answer|answer]; cbn [dispatch]; [done|..].
  - unfold click_focal_length. rewrite focal_run. cbv zeta. unfold readable.
    destruct answer as [e|data]; [done|].
    destruct (get_prop data _) as [?|v]; [done|]. by destruct (to_string _ v).
  - unfold click_plot_ray. rewrite plot_run. cbv zeta. unfold readable.
    destruct answer as [e|data]; [done|]. by destruct (get_prop data _).
Qed.

Lemma session_cons (a : Action) (rest : list Action) (st : AppState) :
  (session number_to_string (a :: rest) st).1
  = (session number_to_string rest (state (dispatch number_to_string a st))).1.
Proof. cbn [session]. by destruct (session _ rest _). Qed.

Lemma session_inputs (actions : list Action) (st1 st2 : AppState) :
  inputs st1 = inputs st2 →
  inputs (session number_to_string (filter is_typed actions) st1).1
  = inputs (session number_to_string actions st2).1.
Proof.
  revert st1 st2. induction actions as [|a rest IH]; intros st1 st2 Hst; [done|].
  rewrite (session_cons a rest).
  destruct a as [name value|answer|answer].
  - rewrite filter_cons_True by done. rewrite session_cons. apply IH.
    rewrite !dispatch_state. cbn. by rewrite Hst.
  - rewrite filter_cons_False by (cbn; auto). apply IH.
    rewrite dispatch_state. cases_answer; done.
  - rewrite filter_cons_False by (cbn; auto). apply IH.
    rewrite dispatch_state. cases_answer; done.
Qed.

Lemma session_focalLength (actions : list Action) (st1 st2 : AppState) :
  focalLength st1 = focalLength st2 →
  focalLength (session number_to_string (filter is_focal_length_click actions) st1).1
  = focalLength (session number_to_string actions st2).1.
Proof.
  revert st1 st2. induction actions as [|a rest IH]; intros st1 st2 Hst; [done|].
  rewrite (session_cons a rest).
  destruct a as [name value|answer|answer].
  - rewrite filter_cons_False by (cbn; auto). apply IH. by rewrite dispatch_state.
  - rewrite filter_cons_True by done. rewrite session_cons. apply IH.
    rewrite !dispatch_state. cases_answer; done.
  - rewrite filter_cons_False by (cbn; auto). apply IH.
    rewrite dispatch_state. cases_answer; done.
Qed.

Lemma session_plotImage (actions : list Action) (st1 st2 : AppState) :
  plotImage st1 = plotImage st2 →
  plotImage (session number_to_string (filter is_ray_plot_click actions) st1).1
  = plotImage (session number_to_string actions st2).1.
Proof.
  revert st1 st2. induction actions as [|a rest IH]; intros st1 st2 Hst; [done|].
  rewrite (session_cons a rest).
  destruct a as [name value|answer|answer].
  - rewrite filter_cons_False by (cbn; auto). apply IH. by rewrite dispatch_state.
  - rewrite filter_cons_False by (cbn; auto). apply IH.
    rewrite dispatch_state. cases_answer; done.
  - rewrite filter_cons_True by done. rewrite session_cons. apply IH.
    rewrite !dispatch_state. cases_answer; done.
Qed.

(** X7: over a whole session the three state cells do not interfere:
    the inputs are those of the change events alone, the focal-length
    text that of the focal-length clicks alone, and the plot image that
    of the ray-plot clicks alone. *)
Theorem state_cells_evolve_independently (actions : list Action) (st : AppState) :
  inputs (session number_to_string actions st).1
    = inputs (session number_to_string (filter is_typed actions) st).1 ∧
  focalLength (session number_to_string actions st).1
    = focalLength
        (session number_to_string (filter is_focal_length_click actions) st).1 ∧
  plotImage (session number_to_string actions st).1
    = plotImage (session number_to_string (filter is_ray_plot_click actions) st).1.
Proof.
  split; [|split]; symmetry.
  - by apply session_inputs.
  - by apply session_focalLength.
  - by apply session_plotImage.
Qed.

Lemma session_focalLength_empty (actions : list Action) (st : AppState) :
  focalLength (session number_to_string actions st).1 = ""
  ↔ focalLength st = "" ∧ existsb focal_length_arrived actions = false.
Proof.
  revert st. induction actions as [|a rest IH]; intros st.
  - cbn. tauto.
  - rewrite session_cons, IH, dispatch_state. cbn [existsb].
    rewrite orb_false_iff.
    destruct a as [name value|answer|answer]; cbn [focalLength focal_length_arrived].
    + tauto.
    + destruct (readable "focal_length" answer) as [v|]; cbn [focalLength]; [|tauto].
      pose proof (to_string_printable number_to_string v) as Hv.
      destruct (to_string number_to_string v); cbn [focalLength]; rewrite Hv.
      * tauto.
      * split; [by intros [? _]|by intros [_ [? _]]].
    + destruct (readable "image" answer); cbn [focalLength]; tauto.
Qed.

(** X8: after a session from the initial state, the focal-length
    paragraph is shown exactly when some focal-length click of the
    session got an answer whose focal_length could be read and is
    printable. *)
Theorem focal_length_paragraph_iff_arrived (actions : list Action) :
  (∃ text, focal_slot (render (session number_to_string actions initial).1)
           = Paragraph text)
  ↔ existsb focal_length_arrived actions = true.
Proof.
  pose proof (session_focalLength_empty actions initial) as Hempty.
  unfold render, js_and. cbn [focal_slot truthy].
  destruct (String.eqb_spec (focalLength (session number_to_string actions initial).1) "")
    as [Heq|Hne]; cbn [negb].
  - apply Hempty in Heq as [_ Hno]. rewrite Hno. split; [by intros [? ?]|done].
  - split; [|eauto]. intros _. apply not_false_iff_true. intros Hno.
    apply Hne, Hempty. done.
Qed.

Lemma dispatch_keeps_fields (a : Action) (st : AppState) (k : string) :
  is_Some (inputs st !! k) →
  is_Some (inputs (state (dispatch number_to_string a st)) !! k).
Proof.
  intros Hk. rewrite dispatch_state. destruct a as [name value|answer|answer].
  - cbn [inputs]. destruct (decide (name = k)) as [->|Hne].
    + rewrite lookup_insert_eq. eauto.
    + by rewrite lookup_insert_ne.
  - cases_answer; done.
  - cases_answer; done.
Qed.

Lemma dispatch_posts (a : Action) (st : AppState) (url : string) (body : JsVal) :
  Post url body ∈ effects (dispatch number_to_string a st) →
  (url = focal_length_url ∧ body = focal_length_request (inputs st))
  ∨ (url = plot_ray_url ∧ body = plot_ray_request (inputs st)).
Proof.
  intros H. apply list_elem_of_In in H.
  destruct a as [name value|answer|answer]; cbn [dispatch] in H.
  - destruct H.
  - unfold click_focal_length in H. rewrite focal_run in H. cbv zeta in H.
    left.
    destruct answer as [e|data];
      [|destruct (get_prop data _) as [?|v]; [|destruct (to_string _ v)]];
      cbn in H; destruct H as [H|[H|H]]; try discriminate H;
      try (by injection H as <- <-); try destruct H as [H|H];
      try discriminate H; destruct H.
  - unfold click_plot_ray in H. rewrite plot_run in H. cbv zeta in H.
    right. destruct answer as [e|data]; [|destruct (get_prop data _)];
      cbn in H; destruct H as [H|[H|H]]; try discriminate H;
      try (by injection H as <- <-); try destruct H as [H|H];
      try discriminate H; destruct H.
Qed.

Lemma session_posts (actions : list Action) (st : AppState) (url : string) (body : JsVal) :
  (∀ k, k ∈ plot_ray_fields → is_Some (inputs st !! k)) →
  Post url body ∈ (session number_to_string actions st).2 →
  ∃ ins : gmap string string,
    (∀ k, k ∈ plot_ray_fields → is_Some (ins !! k)) ∧
    ((url = focal_length_url ∧ body = focal_length_request ins)
     ∨ (url = plot_ray_url ∧ body = plot_ray_request ins)).
Proof.
  revert st. induction actions as [|a rest IH]; intros st Hst.
  - cbn. intros H. by apply elem_of_nil in H.
  - cbn [session].
    destruct (session number_to_string rest (state (dispatch number_to_string a st)))
      as [st' log] eqn:E.
    cbn [snd]. intros H. apply elem_of_app in H as [H|H].
    + exists (inputs st). split; [done|]. by apply dispatch_posts in H.
    + apply (IH (state (dispatch number_to_string a st))).
      * intros k Hk. by apply dispatch_keeps_fields, Hst.
      * by rewrite E.
Qed.

(** X9: every request posted during a session from the initial state
    goes to one of the two URLs, and every field of its body is a
    string: a field is never undefined and never a number. *)
Theorem session_posts_only_strings
    (actions : list Action) (url : string) (body : JsVal) :
  Post url body ∈ (session number_to_string actions initial).2 →
  (url = focal_length_url
   ∧ ∀ k, k ∈ focal_length_fields → ∃ s, get_prop body k = inr (JStr s))
  ∨ (url = plot_ray_url
     ∧ ∀ k, k ∈ plot_ray_fields → ∃ s, get_prop body k = inr (JStr s)).
Proof.
  intros H. apply session_posts in H as (ins & Hins & [[-> ->]|[-> ->]]).
  - left. split; [done|]. intros k Hk.
    destruct (Hins k (focal_fields_are_plot_fields k Hk)) as [s Hs].
    exists s. unfold focal_length_request. rewrite request_of_lookup by done.
    unfold field. by rewrite Hs.
  - right. split; [done|]. intros k Hk. destruct (Hins k Hk) as [s Hs].
    exists s. unfold plot_ray_request. rewrite request_of_lookup by done.
    unfold field. by rewrite Hs.
  - intros k Hk. unfold plot_ray_fields in Hk.
    repeat (apply elem_of_cons in Hk as [->|Hk]; [by eexists|]).
    by apply elem_of_nil in Hk.
Qed.

End Sessions.

Lemma focal_length_paragraph_iff_arrived_witness :
  existsb focal_length_arrived sample_session = true ∧
  ∃ text, focal_slot (render (session no_number_shown sample_session initial).1)
          = Paragraph text.
Proof.
  assert (H : existsb focal_length_arrived sample_session = true) by reflexivity.
  split; [exact H|].
  exact (proj2 (focal_length_paragraph_iff_arrived no_number_shown sample_session) H).
Defined.

Lemma session_posts_only_strings_witness :
  ∃ s, get_prop (plot_ray_request
                   (inputs (state (handleChange "spacings" "0.01" initial))))
                "spacings" = inr (JStr s).
Proof.
  destruct (session_posts_only_strings no_number_shown sample_session plot_ray_url
              (plot_ray_request
                 (inputs (state (handleChange "spacings" "0.01" initial)))))
    as [[Hurl _]|[_ Hbody]].
  - apply (list_elem_of_lookup_2 _ 1%nat). vm_compute. reflexivity.
  - discriminate Hurl.
  - apply Hbody. apply list_elem_of_here.
Defined.

End ComponentFacts.
